(** * Blackhole: the composite logger pipeline, its attribute values and the
  plugin registry.

  The development follows the three source files:
  - [include/blackhole/attribute.hpp]: the borrowing ([value_t]) and owning
    ([owned_t]) attribute values;
  - the logger header ([composite_logger_t], [logger_base_t],
    [verbose_logger_t]);
  - the registry header ([registry_t], [builder_t]).

  Calls into user supplied callables (filters, frontends, the exception
  handler) are run in a small state-and-exception monad over the world
  outside the logger; a ghost trace records every such call so that "is
  invoked", "exactly once" and "in attachment order" are statements about
  the trace. *)

From Stdlib Require Import ZArith List Bool String Lia SpecFloat.
From stdpp Require Import base option list gmap strings.

Local Open Scope Z_scope.

(* ===================================================================== *)
(** * Part I: the embedding *)
(* ===================================================================== *)

(** ** Attribute values: [include/blackhole/attribute.hpp] *)

Module attribute.

(** [string_view]: a view over characters owned by somebody else. Only the
    viewed characters are modelled, not the address they live at. *)
Record string_view := make_string_view { sv_chars : string }.

(** [double] is carried as an IEEE 754 datum. *)
Definition double := spec_float.

(** [static_cast<std::int64_t>(val)]: reduction into the 64-bit signed
    range (the identity on every [int]). *)
Definition static_cast_int64 (val : Z) : Z :=
  (val + 2 ^ 63) mod 2 ^ 64 - 2 ^ 63.

(** *** The C++ types the two variants and their constructors range over *)
Inductive cxx_type :=
| t_int | t_int64 | t_double | t_string_view | t_std_string
| t_owned_cref        (* const owned_t& *)
| t_owned_rref        (* owned_t&& *)
| t_value_cref        (* const value_t& *)
| t_value_rref.       (* value_t&& *)

Definition cxx_type_eqb (a b : cxx_type) : bool :=
  match a, b with
  | t_int, t_int | t_int64, t_int64 | t_double, t_double
  | t_string_view, t_string_view | t_std_string, t_std_string
  | t_owned_cref, t_owned_cref | t_owned_rref, t_owned_rref
  | t_value_cref, t_value_cref | t_value_rref, t_value_rref => true
  | _, _ => false
  end.

(** [value_t::type = boost::variant<int64_t, double, string_view>] *)
Definition value_t_types : list cxx_type := [t_int64; t_double; t_string_view].

(** [template<typename T> struct into_owned], with its specialisation for
    [string_view]. *)
Definition into_owned (T : cxx_type) : cxx_type :=
  match T with
  | t_string_view => t_std_string
  | _ => T
  end.

(** [owned_t::type = make_variant_over<transform<value_t::type::types,
    into_owned<_1>>>] *)
Definition owned_t_types : list cxx_type := map into_owned value_t_types.

(** [value_t]: the borrowing value. *)
Inductive value_variant :=
| value_int64 (v : Z)
| value_double (v : double)
| value_string_view (v : string_view).

Record value_t := make_value { value_inner : value_variant }.

(** [owned_t]: the owning value. *)
Inductive owned_variant :=
| owned_int64 (v : Z)
| owned_double (v : double)
| owned_string (v : string).

Record owned_t := make_owned { owned_inner : owned_variant }.

(** The alternative a variant currently holds. *)
Definition value_which (v : value_t) : cxx_type :=
  match value_inner v with
  | value_int64 _ => t_int64
  | value_double _ => t_double
  | value_string_view _ => t_string_view
  end.

Definition owned_which (v : owned_t) : cxx_type :=
  match owned_inner v with
  | owned_int64 _ => t_int64
  | owned_double _ => t_double
  | owned_string _ => t_std_string
  end.

(** *** Constructors of [value_t] *)

(** [value_t(int val): inner(static_cast<std::int64_t>(val))] *)
Definition value_t_of_int (val : Z) : value_t :=
  make_value (value_int64 (static_cast_int64 val)).

(** [value_t(double val): inner(val)] *)
Definition value_t_of_double (val : double) : value_t :=
  make_value (value_double val).

(** [value_t(string_view val): inner(val)] *)
Definition value_t_of_string_view (val : string_view) : value_t :=
  make_value (value_string_view val).

(** The parameter types of the constructors of [value_t]: the four the
    header writes, in declaration order, the last one,
    [value_t(const owned_t& val);], being declared there and defined
    elsewhere; then the copy and the move constructor, which the compiler
    declares itself since the class declares neither them nor a destructor. *)
Definition value_t_constructors : list cxx_type :=
  [t_int; t_double; t_string_view; t_owned_cref; t_value_cref; t_value_rref].

(** *** Constructors of [owned_t] *)

(** [owned_t(int val): inner(static_cast<std::int64_t>(val))] *)
Definition owned_t_of_int (val : Z) : owned_t :=
  make_owned (owned_int64 (static_cast_int64 val)).

(** [owned_t(double val): inner(val)] *)
Definition owned_t_of_double (val : double) : owned_t :=
  make_owned (owned_double val).

(** [owned_t(std::string val): inner(std::move(val))] *)
Definition owned_t_of_string (val : string) : owned_t :=
  make_owned (owned_string val).

(** The parameter types of the constructors of [owned_t]: the three the
    header writes, then the implicitly declared copy and move constructors. *)
Definition owned_t_constructors : list cxx_type :=
  [t_int; t_double; t_std_string; t_owned_cref; t_owned_rref].

(** Does a class have a constructor whose parameter type is [from]? *)
Definition constructible_from (ctors : list cxx_type) (from : cxx_type) : bool :=
  existsb (cxx_type_eqb from) ctors.

(** An owning value holds the datum a borrowing value views: the same
    number, or a string of the viewed characters. *)
Definition same_datum (v : value_t) (o : owned_t) : Prop :=
  match value_inner v, owned_inner o with
  | value_int64 n, owned_int64 m => n = m
  | value_double x, owned_double y => x = y
  | value_string_view view, owned_string text => sv_chars view = text
  | _, _ => False
  end.

(** *** Attribute pairs and sets *)

(** Modelled from the spec: [pair_t] and [set_t] are used by the logger but
    declared in neither header. An attribute pair is (name, value); an
    attribute set is a sequence of pairs in insertion order, duplicates
    allowed. *)
Definition pair_t : Type := string * owned_t.
Definition set_t : Type := list pair_t.

(** [set_t::reserve(n)] is a capacity hint and leaves the contents alone. *)
Definition reserve (n : nat) (s : set_t) : set_t := s.

(** [set_t::emplace_back(p)] *)
Definition emplace_back (s : set_t) (p : pair_t) : set_t := s ++ [p].

(** Modelled from the spec: [combined_view_t], the lazily concatenated
    read-only view; it lists the viewed sets, none of them copied. *)
Definition combined_view_t : Type := list set_t.

(** The pairs a view ranges over, in iteration order. *)
Definition view_pairs (v : combined_view_t) : set_t := concat v.

(** *** Equality of [value_t] *)

(** [inner == other.inner] on [boost::variant]: two variants holding
    different alternatives are unequal; on the same alternative the held
    values are compared with that type's own [==] (integers by value, doubles
    by IEEE equality, text views by their characters). *)
Definition value_variant_eqb (a b : value_variant) : bool :=
  match a, b with
  | value_int64 x, value_int64 y => Z.eqb x y
  | value_double x, value_double y => SFeqb x y
  | value_string_view x, value_string_view y => String.eqb (sv_chars x) (sv_chars y)
  | _, _ => false
  end.

(** [auto operator==(const value_t& other) const -> bool] *)
Definition value_t_eqb (a b : value_t) : bool :=
  value_variant_eqb (value_inner a) (value_inner b).

(** Is the value a [double] holding a NaN? *)
Definition value_is_nan (v : value_t) : bool :=
  match value_inner v with
  | value_double S754_nan => true
  | _ => false
  end.

End attribute.

Import attribute.

(** ** Records *)

(** Modelled from the spec: [record_t] is used by the logger and declared in
    a header of its own.
  A record owns one internal and one external attribute set, or it is the
  invalid sentinel. *)
Inductive record_t :=
| record_invalid
| record (internal external : set_t).

Definition record_valid (r : record_t) : bool :=
match r with
| record_invalid => false
| record _ _ => true
end.

Definition record_internal (r : record_t) : set_t :=
match r with
| record_invalid => []
| record internal _ => internal
end.

Definition record_external (r : record_t) : set_t :=
match r with
| record_invalid => []
| record _ external => external
end.

(** ** Scoped attributes: [feature::scoped_t] *)

Module feature.

(** Modelled from the spec: [scoped_t] lives in [logger/feature/scoped.hpp],
    which the logger header includes. The calling thread's stack of frames,
    outermost first. *)
Record scoped_t := make_scoped { frames : list set_t }.

(** Modelled from the spec: [view(external)] is the read-only view over all
    active frames, outer to inner, followed by [external]. *)
Definition view (s : scoped_t) (external : set_t) : combined_view_t :=
  frames s ++ [external].

(** Modelled from the spec: [merge(external)] performs the same
    concatenation and stores it in [external]. *)
Definition merge (s : scoped_t) (external : set_t) : set_t :=
  concat (frames s) ++ external.

End feature.


(** ** Build configuration and keywords *)

(** The macros of [blackhole/config.hpp] the logger header tests or uses. *)
Record build_config := make_build_config {
  BLACKHOLE_HAS_ATTRIBUTE_PID : bool;
  BLACKHOLE_HAS_ATTRIBUTE_TID : bool;
  BLACKHOLE_HAS_ATTRIBUTE_LWP : bool;
  BLACKHOLE_INTERNAL_SET_RESERVED_SIZE : nat;
  BLACKHOLE_EXTERNAL_SET_RESERVED_SIZE : nat
}.

Module keyword.

(** Modelled from the spec: the keywords live in the [keyword/*.hpp] headers
    the logger header includes.
    [keyword::k() = v] yields the attribute pair named after the keyword. *)
Definition assign (name : string) (v : owned_t) : pair_t := (name, v).

Definition pid : string := "pid"%string.
Definition tid : string := "tid"%string.
Definition lwp : string := "lwp"%string.
Definition timestamp : string := "timestamp"%string.
Definition severity : string := "severity"%string.

(** Modelled from the spec: the process attribute providers
    ([keyword::init::pid()] and the like) are opaque zero-argument value
    producers; what they produce is read off the world outside the logger. *)
Record init (E : Type) := make_init {
  init_pid : E -> owned_t;
  init_tid : E -> owned_t;
  init_lwp : E -> owned_t;
  init_timestamp : E -> owned_t
}.
Arguments init_pid {E} _ _.
Arguments init_tid {E} _ _.
Arguments init_lwp {E} _ _.
Arguments init_timestamp {E} _ _.

End keyword.

(** ** Calls and their outcomes *)

(** A C++ call either returns or throws. *)
Inductive outcome (exn A : Type) : Type :=
| returns (a : A)
| throws (e : exn).
Arguments returns {exn A} a.
Arguments throws {exn A} e.

(** A callable supplied from outside the logger ([std::function], a virtual
    [handle]): it runs against the outside world [E], changes it, and returns
    or throws. An empty [std::function] is the callable that always throws. *)
Definition callable (E exn A : Type) : Type := E -> outcome exn A * E.

(** ** [composite_logger_t] *)

Section composite_logger.

Variables (E exn FilterArgs : Type).

(** [std::function<bool(const combined_view_t&, const FilterArgs&...)>] *)
Definition filter_type : Type :=
  combined_view_t -> FilterArgs -> callable E exn bool.

(** [base_frontend_t]: one operation, [handle(record)]. *)
Record base_frontend_t : Type := make_frontend {
  handle : record_t -> callable E exn unit
}.

(** [log::exception_handler_t]: called inside [catch (...)], where the
    exception in flight is available to it. *)
Definition exception_handler_t : Type := exn -> callable E exn unit.

(** The calls the logger makes into its collaborators, as they are recorded
    in the ghost trace. [i] is the position of a frontend in [d.frontends]. *)
Inductive event : Type :=
| ev_filter (view : combined_view_t) (args : FilterArgs) (verdict : outcome exn bool)
| ev_merge (external : set_t)
| ev_handle (i : nat) (r : record_t) (result : outcome exn unit)
| ev_exception (i : nat) (e : exn) (result : outcome exn unit).

Record world : Type := make_world {
  trace : list event;
  outside : E
}.

(** Computations of the logger: state passing over [world], with exceptions. *)
Definition exec (A : Type) : Type := world -> outcome exn A * world.

Definition ret {A : Type} (a : A) : exec A := fun w => (returns a, w).

Definition bind {A B : Type} (m : exec A) (k : A -> exec B) : exec B :=
  fun w =>
    match m w with
    | (returns a, w') => k a w'
    | (throws e, w') => (throws e, w')
    end.

(** [try { m } catch (...) { h }] *)
Definition try_catch {A : Type} (m : exec A) (h : exn -> exec A) : exec A :=
  fun w =>
    match m w with
    | (returns a, w') => (returns a, w')
    | (throws e, w') => h e w'
    end.

(** Run a callable and record the call. *)
Definition invoke {A : Type} (c : callable E exn A)
    (ev : outcome exn A -> event) : exec A :=
  fun w =>
    let (r, x) := c (outside w) in
    (r, make_world (trace w ++ [ev r]) x).

(** Record a call that cannot fail. *)
Definition emit (ev : event) : exec unit :=
  fun w => (returns tt, make_world (trace w ++ [ev]) (outside w)).

(** Read the outside world. *)
Definition read {A : Type} (f : E -> A) : exec A :=
  fun w => (returns (f (outside w)), w).

Notation "'do' x <- m ; k" := (bind m (fun x => k))
  (at level 10, x name, m at level 100, k at level 200).
Notation "m ;; k" := (bind m (fun _ => k))
  (at level 100, k at level 200, right associativity).

(** The mixed-in subtype ([T] of [composite_logger_t<T, ...>]): it
    contributes [populate_additional]. *)
Class mixed_type : Type := {
  populate_additional : set_t -> FilterArgs -> set_t
}.

(** The private struct [d] (without its two mutexes) and [scoped]. *)
Record composite_logger_t : Type := make_logger {
  scoped : feature.scoped_t;
  d_enabled : bool;
  d_filter : filter_type;
  d_exception : exception_handler_t;
  d_frontends : list base_frontend_t
}.

(** [composite_logger_t(filter_type filter)] *)
Definition composite_logger_t_new (default_exception_handler_t : exception_handler_t)
    (filter : filter_type) : composite_logger_t :=
  {| scoped := feature.make_scoped [];
     d_enabled := true;
     d_filter := filter;
     d_exception := default_exception_handler_t;
     d_frontends := [] |}.

(** [operator=(composite_logger_t&& other)]: the states of [this] and [other]
    afterwards. *)
Definition move_assign (this other : composite_logger_t)
    : composite_logger_t * composite_logger_t :=
  (* other.d.enabled = d.enabled.exchange(other.d.enabled); *)
  let desired := d_enabled other in
  let previous := d_enabled this in
  let this_enabled := desired in
  let other_enabled := previous in
  (* swap(d.filter, other.d.filter); swap(d.frontends, other.d.frontends);
     scoped.swap(other.scoped); *)
  ({| scoped := scoped other;
      d_enabled := this_enabled;
      d_filter := d_filter other;
      d_exception := d_exception this;
      d_frontends := d_frontends other |},
   {| scoped := scoped this;
      d_enabled := other_enabled;
      d_filter := d_filter this;
      d_exception := d_exception other;
      d_frontends := d_frontends this |}).

(** [bool enabled() const] *)
Definition enabled (L : composite_logger_t) : bool := d_enabled L.

(** [void enabled(bool enable)] *)
Definition set_enabled (enable : bool) (L : composite_logger_t) : composite_logger_t :=
  {| scoped := scoped L; d_enabled := enable; d_filter := d_filter L;
     d_exception := d_exception L; d_frontends := d_frontends L |}.

(** [void set_filter(filter_type filter)] *)
Definition set_filter (filter : filter_type) (L : composite_logger_t) : composite_logger_t :=
  {| scoped := scoped L; d_enabled := d_enabled L; d_filter := filter;
     d_exception := d_exception L; d_frontends := d_frontends L |}.

(** [void add_frontend(std::unique_ptr<base_frontend_t> frontend)] *)
Definition add_frontend (frontend : base_frontend_t) (L : composite_logger_t)
    : composite_logger_t :=
  {| scoped := scoped L; d_enabled := d_enabled L; d_filter := d_filter L;
     d_exception := d_exception L; d_frontends := d_frontends L ++ [frontend] |}.

(** [void set_exception_handler(log::exception_handler_t handler)] *)
Definition set_exception_handler (handler : exception_handler_t)
    (L : composite_logger_t) : composite_logger_t :=
  {| scoped := scoped L; d_enabled := d_enabled L; d_filter := d_filter L;
     d_exception := handler; d_frontends := d_frontends L |}.

Variable cfg : build_config.
Variable init : keyword.init E.

(** [void populate(attribute::set_t& internal) const] *)
Definition populate (internal : set_t) : exec set_t :=
  let internal := reserve (BLACKHOLE_INTERNAL_SET_RESERVED_SIZE cfg) internal in
  do internal <-
    (if BLACKHOLE_HAS_ATTRIBUTE_PID cfg
     then do v <- read (keyword.init_pid init);
          ret (emplace_back internal (keyword.assign keyword.pid v))
     else ret internal);
  do internal <-
    (if BLACKHOLE_HAS_ATTRIBUTE_TID cfg
     then do v <- read (keyword.init_tid init);
          ret (emplace_back internal (keyword.assign keyword.tid v))
     else ret internal);
  do internal <-
    (if BLACKHOLE_HAS_ATTRIBUTE_LWP cfg
     then do v <- read (keyword.init_lwp init);
          ret (emplace_back internal (keyword.assign keyword.lwp v))
     else ret internal);
  do v <- read (keyword.init_timestamp init);
  ret (emplace_back internal (keyword.assign keyword.timestamp v)).

Context {mixed : mixed_type}.

(** [record_t open_record(attribute::set_t external, FilterArgs... args) const] *)
Definition open_record (L : composite_logger_t) (external : set_t)
    (args : FilterArgs) : exec record_t :=
  if negb (enabled L) then ret record_invalid
  else
    let view := feature.view (scoped L) external in
    do accepted <- invoke (d_filter L view args) (ev_filter view args);
    if negb accepted then ret record_invalid
    else
      let internal : set_t := [] in
      do internal <- populate internal;
      let internal := populate_additional internal args in
      let external := reserve (BLACKHOLE_EXTERNAL_SET_RESERVED_SIZE cfg) external in
      emit (ev_merge external);;
      let external := feature.merge (scoped L) external in
      ret (record internal external).

(** [record_t open_record(FilterArgs... args) const] *)
Definition open_record_args (L : composite_logger_t) (args : FilterArgs)
    : exec record_t :=
  open_record L [] args.

(** [record_t open_record(attribute::pair_t pair, FilterArgs... args) const] *)
Definition open_record_pair (L : composite_logger_t) (pair : pair_t)
    (args : FilterArgs) : exec record_t :=
  open_record L [pair] args.

(** The body of the [for] loop of [push], from position [i] on. *)
Fixpoint push_from (i : nat) (frontends : list base_frontend_t)
    (exception : exception_handler_t) (r : record_t) : exec unit :=
  match frontends with
  | [] => ret tt
  | it :: rest =>
      try_catch
        (invoke (handle it r) (ev_handle i r))
        (fun e => invoke (exception e) (ev_exception i e));;
      push_from (S i) rest exception r
  end.

(** [void push(record_t&& record) const] *)
Definition push (L : composite_logger_t) (r : record_t) : exec unit :=
  push_from 0 (d_frontends L) (d_exception L) r.

End composite_logger.

Arguments make_frontend {E exn} handle.
Arguments handle {E exn} _ _ _.
Arguments ev_filter {exn FilterArgs} view args verdict.
Arguments ev_merge {exn FilterArgs} external.
Arguments ev_handle {exn FilterArgs} i r result.
Arguments ev_exception {exn FilterArgs} i e result.
Arguments make_world {E exn FilterArgs} trace outside.
Arguments trace {E exn FilterArgs} w.
Arguments outside {E exn FilterArgs} w.
Arguments ret {E exn FilterArgs A} a _.
Arguments bind {E exn FilterArgs A B} m k _.
Arguments try_catch {E exn FilterArgs A} m h _.
Arguments invoke {E exn FilterArgs A} c ev _.
Arguments emit {E exn FilterArgs} ev _.
Arguments read {E exn FilterArgs A} f _.
Arguments populate_additional {FilterArgs mixed_type} _ _.
Arguments make_logger {E exn FilterArgs} scoped d_enabled d_filter d_exception d_frontends.
Arguments scoped {E exn FilterArgs} c.
Arguments d_enabled {E exn FilterArgs} c.
Arguments d_filter {E exn FilterArgs} c _ _ _.
Arguments d_exception {E exn FilterArgs} c _ _.
Arguments d_frontends {E exn FilterArgs} c.
Arguments composite_logger_t_new {E exn FilterArgs} default_exception_handler_t filter.
Arguments move_assign {E exn FilterArgs} this other.
Arguments enabled {E exn FilterArgs} L.
Arguments set_enabled {E exn FilterArgs} enable L.
Arguments set_filter {E exn FilterArgs} filter L.
Arguments add_frontend {E exn FilterArgs} frontend L.
Arguments set_exception_handler {E exn FilterArgs} handler L.
Arguments populate {E exn FilterArgs} cfg init internal _.
Arguments open_record {E exn FilterArgs} cfg init {mixed} L external args _.
Arguments open_record_args {E exn FilterArgs} cfg init {mixed} L args _.
Arguments open_record_pair {E exn FilterArgs} cfg init {mixed} L pair args _.
Arguments push_from {E exn FilterArgs} i frontends exception r _.
Arguments push {E exn FilterArgs} L r _.

(** ** [logger_base_t] *)

(** [void populate_additional(attribute::set_t&) const {}]: no filter
    arguments, nothing added. *)
#[export] Instance logger_base_t_mixed : mixed_type unit :=
  {| populate_additional := fun internal _ => internal |}.

(** ** [verbose_logger_t<Level>] *)

(** An enumeration [Level] together with its underlying integer type:
    [underlying] is [static_cast<underlying_type>(level)], [of_underlying] is
    [static_cast<level_type>(n)], and casting there and back gives the
    enumerator one started from. *)
Class level_type (Level : Type) : Type := {
  underlying : Level -> Z;
  of_underlying : Z -> Level;
  of_underlying_underlying : forall l : Level, of_underlying (underlying l) = l
}.

Section verbose_logger.

Variables (E exn Level : Type).
Context {enum : level_type Level}.

(** [struct default_filter { const level_type threshold; operator() }] *)
Definition default_filter (threshold : Level) : filter_type E exn Level :=
  fun _ level x =>
    (returns (Z.geb (underlying level) (underlying threshold)), x).

(** Modelled from the spec: [keyword::severity<level_type>() = level], from
    [keyword/severity.hpp]; the severity attribute carries the level, stored
    through its ordinal. *)
Definition severity_attribute (level : Level) : pair_t :=
  keyword.assign keyword.severity (make_owned (owned_int64 (underlying level))).

(** The level a severity attribute value stands for. *)
Definition severity_of (v : owned_t) : option Level :=
  match owned_inner v with
  | owned_int64 n => Some (of_underlying n)
  | _ => None
  end.

(** [void populate_additional(attribute::set_t& internal, level_type level) const] *)
#[export] Instance verbose_logger_t_mixed : mixed_type Level :=
  {| populate_additional := fun internal level =>
       emplace_back internal (severity_attribute level) |}.

(** The base subobject and [std::atomic<underlying_type> level]. *)
Record verbose_logger_t : Type := make_verbose_logger {
  base : composite_logger_t E exn Level;
  level : Z
}.

(** [verbose_logger_t(level_type level)] *)
Definition verbose_logger_t_new (default_exception_handler_t : exception_handler_t E exn)
    (lvl : Level) : verbose_logger_t :=
  {| base := composite_logger_t_new default_exception_handler_t (default_filter lvl);
     level := underlying lvl |}.

(** [level_type verbosity() const] *)
Definition verbosity (v : verbose_logger_t) : Level :=
  of_underlying (level v).

(** [void set_filter(level_type level)] *)
Definition verbose_set_filter (lvl : Level) (v : verbose_logger_t) : verbose_logger_t :=
  let b := set_filter (default_filter lvl) (base v) in
  {| base := b; level := underlying lvl |}.

(** [void set_filter(level_type level, typename base_type::filter_type filter)] *)
Definition verbose_set_filter_with (lvl : Level) (filter : filter_type E exn Level)
    (v : verbose_logger_t) : verbose_logger_t :=
  let b := set_filter filter (base v) in
  {| base := b; level := underlying lvl |}.

(** [record_t open_record(level_type level, attribute::set_t external) const] *)
Definition verbose_open_record (cfg : build_config) (init : keyword.init E)
    (v : verbose_logger_t) (lvl : Level) (external : set_t)
    : exec E exn Level record_t :=
  open_record cfg init (base v) external lvl.

End verbose_logger.

Arguments default_filter {E exn Level enum} threshold _ _ _.
Arguments severity_attribute {Level enum} level.
Arguments severity_of {Level enum} v.
Arguments make_verbose_logger {E exn Level} base level.
Arguments base {E exn Level} v.
Arguments level {E exn Level} v.
Arguments verbose_logger_t_new {E exn Level enum} default_exception_handler_t lvl.
Arguments verbosity {E exn Level enum} v.
Arguments verbose_set_filter {E exn Level enum} lvl v.
Arguments verbose_set_filter_with {E exn Level enum} lvl filter v.
Arguments verbose_open_record {E exn Level enum} cfg init v lvl external _.

(** ** [registry_t] and [builder_t] *)

Module registry.

(** Modelled from the spec: the two ways construction fails. A lookup of an
    unregistered type name fails with the NotFound condition; a factory may
    fail with a configuration error of its own. *)
Inductive error : Type :=
| NotFound
| ConfigurationError (what : string).

(** A call that returns a value or throws one of the two errors. *)
Inductive result (A : Type) : Type :=
| ok (a : A)
| failed (e : error).
Arguments ok {A} a.
Arguments failed {A} e.

Definition and_then {A B : Type} (r : result A) (k : A -> result B) : result B :=
  match r with
  | ok a => k a
  | failed e => failed e
  end.

Definition is_ok {A : Type} (r : result A) : bool :=
  match r with
  | ok _ => true
  | failed _ => false
  end.

(** Modelled from the spec: [config::node_t], the opaque configuration-tree
    node. What a walk reads from it is kept: the type name it carries and its
    remaining leaves. *)
Record node_t : Type := make_node {
  node_type : string;
  node_leaves : list (string * string)
}.

(** Modelled from the spec: a handler definition of the configuration
    document, with the formatter definition and the sink definitions below
    it. *)
Record handler_node_t : Type := make_handler_node {
  handler_self : node_t;
  handler_formatter : node_t;
  handler_sinks : list node_t
}.

(** Modelled from the spec: the configuration document, as the sequence of
    handler definitions a walk enumerates. *)
Definition document : Type := list handler_node_t.

Section registry.

Variables (sink_t handler_t formatter_t : Type).

(** [typedef std::function<std::unique_ptr<sink_t>(const config::node_t&)>
    sink_factory;] and its two siblings. *)
Definition sink_factory : Type := node_t -> result sink_t.
Definition handler_factory : Type := node_t -> result handler_t.
Definition formatter_factory : Type := node_t -> result formatter_t.

(** Modelled from the spec: [registry_t] is an abstract class in the source;
    its state is three independent mappings from type name to factory. *)
Record registry_t : Type := make_registry {
  sinks : gmap string sink_factory;
  handlers : gmap string handler_factory;
  formatters : gmap string formatter_factory
}.

(** Modelled from the spec: [registry::empty()]. *)
Definition empty : registry_t :=
  {| sinks := ∅; handlers := ∅; formatters := ∅ |}.

(** Modelled from the spec: [sink(type)], pure virtual in the source:
    "Returns the sink factory with the given type if registered, throws
    otherwise." *)
Definition sink (r : registry_t) (type : string) : result sink_factory :=
  match sinks r !! type with
  | Some factory => ok factory
  | None => failed NotFound
  end.

(** Modelled from the spec: [handler(type)], pure virtual in the source. *)
Definition handler (r : registry_t) (type : string) : result handler_factory :=
  match handlers r !! type with
  | Some factory => ok factory
  | None => failed NotFound
  end.

(** Modelled from the spec: [formatter(type)], pure virtual in the source. *)
Definition formatter (r : registry_t) (type : string) : result formatter_factory :=
  match formatters r !! type with
  | Some factory => ok factory
  | None => failed NotFound
  end.

(** Modelled from the spec: the three [add] overloads, pure virtual in the
    source; the last registration of a type name wins. *)
Definition add_sink (type : string) (factory : sink_factory) (r : registry_t)
    : registry_t :=
  {| sinks := <[type := factory]> (sinks r);
     handlers := handlers r; formatters := formatters r |}.

Definition add_handler (type : string) (factory : handler_factory) (r : registry_t)
    : registry_t :=
  {| sinks := sinks r;
     handlers := <[type := factory]> (handlers r); formatters := formatters r |}.

Definition add_formatter (type : string) (factory : formatter_factory)
    (r : registry_t) : registry_t :=
  {| sinks := sinks r; handlers := handlers r;
     formatters := <[type := factory]> (formatters r) |}.

(** Modelled from the spec: a Handler, the frontend adapter combining one
    formatter with its sinks. *)
Record assembled_t : Type := make_assembled {
  assembled_handler : handler_t;
  assembled_formatter : formatter_t;
  assembled_sinks : list sink_t
}.

(** Modelled from the spec: [root_logger_t], the freshly constructed core
    bound to a name with the handlers attached in order. *)
Record root_logger_t : Type := make_root_logger {
  logger_name : string;
  attached : list assembled_t
}.

(** [class builder_t { const registry_t& registry;
    std::unique_ptr<config::factory_t> factory; }] *)
Record builder_t : Type := make_builder {
  builder_registry : registry_t;
  builder_factory : document
}.

(** [registry_t::builder<T>(args...)]: [return {*this, ...config factory...}] *)
Definition builder (r : registry_t) (config : document) : builder_t :=
  {| builder_registry := r; builder_factory := config |}.

(** Modelled from the spec: what the registry resolves a handler definition
    to: the factory found for each type name, paired with the node it is to
    be applied to. *)
Record resolved_t : Type := make_resolved {
  resolved_handler : handler_factory * node_t;
  resolved_formatter : formatter_factory * node_t;
  resolved_sinks : list (sink_factory * node_t)
}.

(** Modelled from the spec: resolving the sink type names of one handler
    definition through the registry. *)
Fixpoint resolve_sinks (r : registry_t) (nodes : list node_t)
    : result (list (sink_factory * node_t)) :=
  match nodes with
  | [] => ok []
  | node :: rest =>
      and_then (sink r (node_type node)) (fun factory =>
      and_then (resolve_sinks r rest) (fun resolved =>
      ok ((factory, node) :: resolved)))
  end.

(** Modelled from the spec: [builder_t::handler(config)], declared in the
    source and defined elsewhere, as far as it consults the registry: the
    handler type, the formatter type and the sink types are looked up. *)
Definition resolve_handler (r : registry_t) (h : handler_node_t) : result resolved_t :=
  and_then (handler r (node_type (handler_self h))) (fun hfactory =>
  and_then (formatter r (node_type (handler_formatter h))) (fun ffactory =>
  and_then (resolve_sinks r (handler_sinks h)) (fun sfactories =>
  ok (make_resolved (hfactory, handler_self h) (ffactory, handler_formatter h)
        sfactories)))).

(** Modelled from the spec: the walk over the handler definitions of the
    document, resolving every type name it refers to. *)
Fixpoint resolve_handlers (r : registry_t) (config : document)
    : result (list resolved_t) :=
  match config with
  | [] => ok []
  | h :: rest =>
      and_then (resolve_handler r h) (fun a =>
      and_then (resolve_handlers r rest) (fun rest' =>
      ok (a :: rest')))
  end.

(** Modelled from the spec: running the sink factories on their nodes; a
    factory's configuration error is passed on as it is. *)
Fixpoint construct_sinks (resolved : list (sink_factory * node_t))
    : result (list sink_t) :=
  match resolved with
  | [] => ok []
  | (factory, node) :: rest =>
      and_then (factory node) (fun s =>
      and_then (construct_sinks rest) (fun ss =>
      ok (s :: ss)))
  end.

(** Modelled from the spec: constructing the Handler of one resolved
    definition from its formatter and its sinks. *)
Definition construct_handler (a : resolved_t) : result assembled_t :=
  and_then (fst (resolved_formatter a) (snd (resolved_formatter a))) (fun f =>
  and_then (construct_sinks (resolved_sinks a)) (fun ss =>
  and_then (fst (resolved_handler a) (snd (resolved_handler a))) (fun hd =>
  ok (make_assembled hd f ss)))).

Fixpoint construct_handlers (resolved : list resolved_t) : result (list assembled_t) :=
  match resolved with
  | [] => ok []
  | a :: rest =>
      and_then (construct_handler a) (fun hd =>
      and_then (construct_handlers rest) (fun hds =>
      ok (hd :: hds)))
  end.

(** Modelled from the spec: [builder_t::build(name)], declared in the source
    and defined elsewhere. A type name the registry does not know makes
    [build] fail with NotFound whatever else the document holds, so the names
    are resolved before a factory is run; the factories then construct the
    handlers, which are attached in document order to the logger bound to
    [name]. *)
Definition build (b : builder_t) (name : string) : result root_logger_t :=
  and_then (resolve_handlers (builder_registry b) (builder_factory b)) (fun resolved =>
  and_then (construct_handlers resolved) (fun hs =>
  ok (make_root_logger name hs))).

(** A handler definition names a type that is missing from the mapping it is
    looked up in. *)
Definition handler_node_unregistered (r : registry_t) (h : handler_node_t) : Prop :=
  handlers r !! node_type (handler_self h) = None
  \/ formatters r !! node_type (handler_formatter h) = None
  \/ exists node, In node (handler_sinks h) /\ sinks r !! node_type node = None.

Definition references_unregistered (r : registry_t) (config : document) : Prop :=
  exists h, In h config /\ handler_node_unregistered r h.

End registry.

Arguments make_registry {sink_t handler_t formatter_t} sinks handlers formatters.
Arguments sinks {sink_t handler_t formatter_t} r.
Arguments handlers {sink_t handler_t formatter_t} r.
Arguments formatters {sink_t handler_t formatter_t} r.
Arguments empty {sink_t handler_t formatter_t}.
Arguments sink {sink_t handler_t formatter_t} r type.
Arguments handler {sink_t handler_t formatter_t} r type.
Arguments formatter {sink_t handler_t formatter_t} r type.
Arguments add_sink {sink_t handler_t formatter_t} type factory r.
Arguments add_handler {sink_t handler_t formatter_t} type factory r.
Arguments add_formatter {sink_t handler_t formatter_t} type factory r.
Arguments make_assembled {sink_t handler_t formatter_t} _ _ _.
Arguments make_root_logger {sink_t handler_t formatter_t} _ _.
Arguments logger_name {sink_t handler_t formatter_t} _.
Arguments attached {sink_t handler_t formatter_t} _.
Arguments make_builder {sink_t handler_t formatter_t} _ _.
Arguments builder_registry {sink_t handler_t formatter_t} _.
Arguments builder_factory {sink_t handler_t formatter_t} _.
Arguments builder {sink_t handler_t formatter_t} r config.
Arguments make_resolved {sink_t handler_t formatter_t} _ _ _.
Arguments resolved_handler {sink_t handler_t formatter_t} _.
Arguments resolved_formatter {sink_t handler_t formatter_t} _.
Arguments resolved_sinks {sink_t handler_t formatter_t} _.
Arguments resolve_sinks {sink_t handler_t formatter_t} r nodes.
Arguments resolve_handler {sink_t handler_t formatter_t} r h.
Arguments resolve_handlers {sink_t handler_t formatter_t} r config.
Arguments construct_sinks {sink_t} resolved.
Arguments construct_handler {sink_t handler_t formatter_t} a.
Arguments construct_handlers {sink_t handler_t formatter_t} resolved.
Arguments build {sink_t handler_t formatter_t} b name.
Arguments handler_node_unregistered {sink_t handler_t formatter_t} r h.
Arguments references_unregistered {sink_t handler_t formatter_t} r config.

End registry.

(** ** Reading a trace *)

Section trace.

Variables (exn FilterArgs : Type).

(** The frontend whose [handle] an event is a call of. *)
Definition handled (ev : event exn FilterArgs) : option nat :=
  match ev with
  | ev_handle i _ _ => Some i
  | _ => None
  end.

(** The frontend whose [handle] an event shows to have thrown. *)
Definition raised (ev : event exn FilterArgs) : option nat :=
  match ev with
  | ev_handle i _ (throws _) => Some i
  | _ => None
  end.

(** The frontend on whose behalf an event calls the exception handler. *)
Definition excepted (ev : event exn FilterArgs) : option nat :=
  match ev with
  | ev_exception i _ _ => Some i
  | _ => None
  end.

(** The external set an event hands to [scoped.merge]. *)
Definition merged (ev : event exn FilterArgs) : option set_t :=
  match ev with
  | ev_merge external => Some external
  | _ => None
  end.

(** The filter verdict an event records. *)
Definition filtered (ev : event exn FilterArgs) : option (outcome exn bool) :=
  match ev with
  | ev_filter _ _ verdict => Some verdict
  | _ => None
  end.

(** What one iteration of the loop of [push] leaves in the trace when the
    exception handler itself returns: the call of [handle], followed by the
    call of the handler when [handle] threw. *)
Definition iteration (i : nat) (r : record_t) (block : list (event exn FilterArgs)) : Prop :=
  block = [ev_handle i r (returns tt)]
  \/ exists e, block = [ev_handle i r (throws e); ev_exception i e (returns tt)].

End trace.

Arguments handled {exn FilterArgs} ev.
Arguments raised {exn FilterArgs} ev.
Arguments excepted {exn FilterArgs} ev.
Arguments merged {exn FilterArgs} ev.
Arguments filtered {exn FilterArgs} ev.
Arguments iteration {exn FilterArgs} i r block.

(** ** The effect of a push on the outside world *)

(** What the turn of one frontend does to the outside world: [handle] runs,
    and when it throws the exception handler runs after it. *)
Definition turn {E exn : Type} (exception : exception_handler_t E exn)
    (r : record_t) (x : E) (it : base_frontend_t E exn) : E :=
  match handle it r x with
  | (returns _, x') => x'
  | (throws e, x') => snd (exception e x')
  end.

(** ** What an accepted record is made of *)

(** The attributes [populate] appends, in the order of its statements, read
    in the outside world [x]. *)
Definition process_attributes {E : Type} (cfg : build_config) (init : keyword.init E)
    (x : E) : set_t :=
  (if BLACKHOLE_HAS_ATTRIBUTE_PID cfg
   then [keyword.assign keyword.pid (keyword.init_pid init x)] else [])
  ++ (if BLACKHOLE_HAS_ATTRIBUTE_TID cfg
      then [keyword.assign keyword.tid (keyword.init_tid init x)] else [])
  ++ (if BLACKHOLE_HAS_ATTRIBUTE_LWP cfg
      then [keyword.assign keyword.lwp (keyword.init_lwp init x)] else [])
  ++ [keyword.assign keyword.timestamp (keyword.init_timestamp init x)].

(** Whether a call of [open_record] handed back a valid record. *)
Definition opened {E exn FilterArgs : Type}
    (run : outcome exn record_t * world E exn FilterArgs) : bool :=
  match fst run with
  | returns r => record_valid r
  | throws _ => false
  end.

(** ** Moving a [verbose_logger_t] *)

Section verbose_logger_move.

Variables (E exn Level : Type).
Context {enum : level_type Level}.

(** [verbose_logger_t& operator=(verbose_logger_t&& other)]:
    [base_type::operator=(std::move(other)); level.store(other.level);] *)
Definition verbose_move_assign (this other : verbose_logger_t E exn Level)
    : verbose_logger_t E exn Level * verbose_logger_t E exn Level :=
  let bases := move_assign (base this) (base other) in
  ({| base := fst bases; level := level other |},
   {| base := snd bases; level := level other |}).

(** The filter in force is the default filter at the level [verbosity()]
    reports. *)
Definition threshold_in_force (v : verbose_logger_t E exn Level) : Prop :=
  d_filter (base v) = default_filter (verbosity v).

End verbose_logger_move.

Arguments verbose_move_assign {E exn Level} this other.
Arguments threshold_in_force {E exn Level enum} v.

(** ** Sample configurations *)

Module sample.

(** The outside world is the list of records the recording frontend has
    received; exceptions are error codes. *)
Definition E : Type := list record_t.
Definition exn : Type := nat.

Inductive severity : Type := DEBUG | INFO | WARNING | ERROR.

Definition severity_underlying (l : severity) : Z :=
  match l with
  | DEBUG => 0
  | INFO => 1
  | WARNING => 2
  | ERROR => 3
  end.

Definition severity_of_underlying (n : Z) : severity :=
  match n with
  | 0 => DEBUG
  | 1 => INFO
  | 2 => WARNING
  | _ => ERROR
  end.

Definition severity_roundtrip (l : severity)
    : severity_of_underlying (severity_underlying l) = l :=
  match l with
  | DEBUG => eq_refl
  | INFO => eq_refl
  | WARNING => eq_refl
  | ERROR => eq_refl
  end.

#[global] Instance severity_level_type : level_type severity :=
  {| underlying := severity_underlying;
     of_underlying := severity_of_underlying;
     of_underlying_underlying := severity_roundtrip |}.

Definition cfg : build_config :=
  {| BLACKHOLE_HAS_ATTRIBUTE_PID := true;
     BLACKHOLE_HAS_ATTRIBUTE_TID := false;
     BLACKHOLE_HAS_ATTRIBUTE_LWP := false;
     BLACKHOLE_INTERNAL_SET_RESERVED_SIZE := 6;
     BLACKHOLE_EXTERNAL_SET_RESERVED_SIZE := 16 |}.

Definition init : keyword.init E :=
  {| keyword.init_pid := fun _ => owned_t_of_int 4242;
     keyword.init_tid := fun _ => owned_t_of_int 1;
     keyword.init_lwp := fun _ => owned_t_of_int 1;
     keyword.init_timestamp := fun x => owned_t_of_int (Z.of_nat (length x)) |}.

(** Frontend A: always throws. Frontend B: records what it receives. *)
Definition failing_frontend : base_frontend_t E exn :=
  make_frontend (fun _ x => (throws 1%nat, x)).

Definition recording_frontend : base_frontend_t E exn :=
  make_frontend (fun r x => (returns tt, x ++ [r])).

(** An exception handler that swallows, and one that throws again. *)
Definition swallow : exception_handler_t E exn :=
  fun _ x => (returns tt, x).

Definition rethrow : exception_handler_t E exn :=
  fun e x => (throws e, x).

Definition accept_all {FilterArgs : Type} : filter_type E exn FilterArgs :=
  fun _ _ x => (returns true, x).

Definition reject_all {FilterArgs : Type} : filter_type E exn FilterArgs :=
  fun _ _ x => (returns false, x).

(** A filter with a side effect: it leaves a mark in the outside world. *)
Definition marking_filter {FilterArgs : Type} : filter_type E exn FilterArgs :=
  fun _ _ x => (returns false, x ++ [record_invalid]).

Definition frame1 : set_t := [("a"%string, owned_t_of_int 1)].
Definition frame2 : set_t := [("b"%string, owned_t_of_int 2)].
Definition message : set_t := [("message"%string, owned_t_of_string "hello")].

Definition a_record : record_t := record [] message.

Definition start : world E exn unit := make_world [] [].
Definition start_verbose : world E exn severity := make_world [] [].

(** A core with frontends A and B, in that order. *)
Definition core (handler : exception_handler_t E exn) (filter : filter_type E exn unit)
    (on : bool) : composite_logger_t E exn unit :=
  {| scoped := feature.make_scoped [frame1; frame2];
     d_enabled := on;
     d_filter := filter;
     d_exception := handler;
     d_frontends := [failing_frontend; recording_frontend] |}.

(** A fresh core, as [composite_logger_t(filter)] leaves it. *)
Definition fresh : composite_logger_t E exn unit :=
  composite_logger_t_new rethrow reject_all.

(** A registry with a handler, a formatter that insists on a pattern, and a
    console sink; no sink named file. *)
Definition string_formatter : registry.formatter_factory string :=
  fun node =>
    match node.(registry.node_leaves) with
    | [] => registry.failed (registry.ConfigurationError "pattern")
    | (_, pattern) :: _ => registry.ok pattern
    end.

Definition a_registry : registry.registry_t string string string :=
  registry.add_sink "console" (fun _ => registry.ok "console"%string)
    (registry.add_formatter "string" string_formatter
      (registry.add_handler "blocking" (fun _ => registry.ok "blocking"%string)
        registry.empty)).

Definition blocking : registry.node_t := registry.make_node "blocking" [].
Definition pattern : registry.node_t :=
  registry.make_node "string" [("pattern"%string, "{message}"%string)].
Definition no_pattern : registry.node_t := registry.make_node "string" [].
Definition console : registry.node_t := registry.make_node "console" [].
Definition file : registry.node_t :=
  registry.make_node "file" [("path"%string, "/dev/stdout"%string)].

(** A document whose only handler writes to a file sink. *)
Definition file_config : registry.document :=
  [registry.make_handler_node blocking pattern [file]].

(** A document whose first handler lacks the formatter pattern and whose
    second handler writes to a file sink. *)
Definition malformed_config : registry.document :=
  [registry.make_handler_node blocking no_pattern [console];
   registry.make_handler_node blocking pattern [file]].

(** A filter that throws, as an empty [std::function] does. *)
Definition throwing_filter {FilterArgs : Type} : filter_type E exn FilterArgs :=
  fun _ _ x => (throws 9%nat, x).

(** A frontend C that records and then throws. *)
Definition recording_then_failing_frontend : base_frontend_t E exn :=
  make_frontend (fun r x => (throws 2%nat, x ++ [r])).

(** A core with frontend B only. *)
Definition quiet_core : composite_logger_t E exn unit :=
  {| scoped := feature.make_scoped [frame1];
     d_enabled := true;
     d_filter := accept_all;
     d_exception := swallow;
     d_frontends := [recording_frontend] |}.

End sample.

(* ===================================================================== *)
(** * Part II: properties *)
(* ===================================================================== *)

(** ** The execution monad *)

Section exec_facts.

Context {E exn FilterArgs : Type}.

Lemma bind_returns {A B : Type} (m : exec E exn FilterArgs A)
    (k : A -> exec E exn FilterArgs B) w a w' :
  m w = (returns a, w') -> bind m k w = k a w'.
Proof. intros Hm. unfold bind. now rewrite Hm. Qed.

Lemma bind_throws {A B : Type} (m : exec E exn FilterArgs A)
    (k : A -> exec E exn FilterArgs B) w e w' :
  m w = (throws e, w') -> bind m k w = (throws e, w').
Proof. intros Hm. unfold bind. now rewrite Hm. Qed.

Lemma invoke_eq {A : Type} (c : callable E exn A)
    (ev : outcome exn A -> event exn FilterArgs) (w : world E exn FilterArgs) res x :
  c (outside w) = (res, x) ->
  invoke c ev w = (res, make_world (trace w ++ [ev res]) x).
Proof. intros Hc. unfold invoke. now rewrite Hc. Qed.

End exec_facts.

(** ** [push] *)

Section push_facts.

Context {E exn FilterArgs : Type}.

Implicit Types (w : world E exn FilterArgs) (r : record_t).

(** One turn of the loop, when the exception handler returns. *)
Lemma push_turn (exception : exception_handler_t E exn) i it r w :
  (forall e x, fst (exception e x) = returns tt) ->
  exists block,
    try_catch (invoke (handle it r) (ev_handle i r))
      (fun e => invoke (exception e) (ev_exception i e)) w
    = (returns tt, make_world (trace w ++ block) (turn exception r (outside w) it))
    /\ iteration i r block.
Proof.
  intros Hexc. unfold try_catch, turn.
  destruct (handle it r (outside w)) as [res x] eqn:Hh.
  rewrite (invoke_eq _ _ _ _ _ Hh).
  destruct res as [[]|e].
  - exists [ev_handle i r (returns tt)]. split; [reflexivity | now left].
  - destruct (exception e x) as [res' x'] eqn:He.
    pose proof (Hexc e x) as Hret. rewrite He in Hret. simpl in Hret. subst res'.
    unfold invoke. simpl. rewrite He. simpl. rewrite <- app_assoc. simpl.
    exists [ev_handle i r (throws e); ev_exception i e (returns tt)].
    split; [reflexivity | right; now exists e].
Qed.

(** The loop from position [i] on. *)
Lemma push_from_blocks (exception : exception_handler_t E exn) frontends :
  (forall e x, fst (exception e x) = returns tt) ->
  forall i r w,
  exists blocks,
    push_from i frontends exception r w
    = (returns tt,
       make_world (trace w ++ concat blocks)
                  (fold_left (turn exception r) frontends (outside w)))
    /\ length blocks = length frontends
    /\ (forall k, (k < length frontends)%nat -> iteration (i + k) r (nth k blocks [])).
Proof.
  intros Hexc. induction frontends as [|it rest IH]; intros i r w.
  - exists []. simpl. rewrite app_nil_r. destruct w. repeat split. intros k Hk. inversion Hk.
  - destruct (push_turn exception i it r w Hexc) as (block & Hturn & Hblock).
    destruct (IH (S i) r (make_world (trace w ++ block) (turn exception r (outside w) it)))
      as (blocks & Hrest & Hlen & Hnth).
    exists (block :: blocks). simpl.
    rewrite (bind_returns _ _ _ _ _ Hturn). rewrite Hrest. simpl.
    rewrite <- app_assoc. repeat split.
    + now rewrite Hlen.
    + intros [|k] Hk.
      * now rewrite Nat.add_0_r.
      * replace (i + S k)%nat with (S i + k)%nat by lia. apply Hnth. lia.
Qed.

(** The blocks of a run, read back: the [handle] calls are those of the
    positions [i], [i+1], ... in this order, once each, and the exception
    handler is called for exactly the positions whose [handle] threw. *)
Lemma iteration_blocks_calls r (blocks : list (list (event exn FilterArgs))) :
  forall i,
  (forall k, (k < length blocks)%nat -> iteration (i + k) r (nth k blocks [])) ->
  omap handled (concat blocks) = seq i (length blocks)
  /\ omap excepted (concat blocks) = omap raised (concat blocks).
Proof.
  induction blocks as [|block blocks IH]; intros i Hnth.
  - split; reflexivity.
  - assert (iteration i r block) as Hblock.
    { specialize (Hnth 0%nat). simpl in Hnth. rewrite Nat.add_0_r in Hnth.
      apply Hnth. lia. }
    destruct (IH (S i)) as (Hh & He).
    { intros k Hk. specialize (Hnth (S k)). simpl in Hnth.
      replace (i + S k)%nat with (S i + k)%nat in Hnth by lia. apply Hnth. lia. }
    simpl. rewrite !omap_app, Hh, He.
    destruct Hblock as [->|(e & ->)]; split; reflexivity.
Qed.

(** Every attached frontend is attempted exactly once, in attachment order,
    and the exception handler runs for exactly the frontends that threw. *)
Lemma push_calls_in_order (L : composite_logger_t E exn FilterArgs) r w :
  (forall e x, fst (d_exception L e x) = returns tt) ->
  exists added w',
    push L r w = (returns tt, w')
    /\ trace w' = trace w ++ added
    /\ omap handled added = seq 0 (length (d_frontends L))
    /\ omap excepted added = omap raised added.
Proof.
  intros Hexc. unfold push.
  destruct (push_from_blocks (d_exception L) (d_frontends L) Hexc 0%nat r w)
    as (blocks & Hrun & Hlen & Hnth).
  rewrite <- Hlen in Hnth.
  destruct (iteration_blocks_calls r blocks 0%nat Hnth) as (Hh & He).
  exists (concat blocks). eexists. split; [exact Hrun|]. simpl.
  rewrite <- Hlen. repeat split; assumption.
Qed.

End push_facts.

(** C1 (as amended). Provided the exception handler itself returns, [push]
    returns to its caller for every record and every list of frontends; what
    it adds to the trace is one block per attached frontend, in attachment
    order, block [i] being the call of frontend [i]'s [handle] and, exactly
    when that call threw, the call of the exception handler for frontend [i];
    and the outside world afterwards is the one obtained by giving every
    frontend its turn, whatever earlier frontends did. *)
Theorem C1_push_attempts_every_frontend {E exn FilterArgs : Type}
    (L : composite_logger_t E exn FilterArgs) (r : record_t)
    (w : world E exn FilterArgs) :
  (forall e x, fst (d_exception L e x) = returns tt) ->
  exists blocks,
    push L r w
    = (returns tt,
       make_world (trace w ++ concat blocks)
                  (fold_left (turn (d_exception L) r) (d_frontends L) (outside w)))
    /\ length blocks = length (d_frontends L)
    /\ (forall i, (i < length (d_frontends L))%nat -> iteration i r (nth i blocks [])).
Proof.
  intros Hexc. unfold push.
  destruct (push_from_blocks (d_exception L) (d_frontends L) Hexc 0%nat r w)
    as (blocks & Hrun & Hlen & Hnth).
  exists blocks. repeat split; assumption.
Qed.

Lemma C1_push_attempts_every_frontend_witness :
  exists blocks,
    push (sample.core sample.swallow sample.accept_all true) sample.a_record sample.start
    = (returns tt,
       make_world (trace sample.start ++ concat blocks)
                  (fold_left (turn sample.swallow sample.a_record)
                     [sample.failing_frontend; sample.recording_frontend]
                     (outside sample.start)))
    /\ length blocks = 2%nat
    /\ (forall i, (i < 2)%nat -> iteration i sample.a_record (nth i blocks [])).
Proof.
  apply (C1_push_attempts_every_frontend
           (sample.core sample.swallow sample.accept_all true)
           sample.a_record sample.start).
  intros e x. reflexivity.
Defined.

(** C1, the claim as stated, fails when the exception handler throws: with
    frontend A (always throws) attached before frontend B (records what it
    receives) and a handler that throws again, [push] throws to its caller
    after the handler's call, and B is never attempted. *)
Lemma C1_push_raises_when_handler_raises :
  push (sample.core sample.rethrow sample.accept_all true) sample.a_record sample.start
  = (throws 1%nat,
     make_world
       [ev_handle 0 sample.a_record (throws 1%nat);
        ev_exception 0 1%nat (throws 1%nat)]
       []).
Proof. reflexivity. Qed.

(** Failure isolation on the two sample frontends: B receives the record
    despite A's failure, and the exception handler is called exactly once. *)
Example push_isolates_failing_frontend :
  push (sample.core sample.swallow sample.accept_all true) sample.a_record sample.start
  = (returns tt,
     make_world
       [ev_handle 0 sample.a_record (throws 1%nat);
        ev_exception 0 1%nat (returns tt);
        ev_handle 1 sample.a_record (returns tt)]
       [sample.a_record]).
Proof. reflexivity. Qed.

(** ** [open_record] *)

(** C2. A disabled core answers every [open_record] with the invalid record,
    whatever the filter, the external attributes and the filter arguments;
    the world is returned as it was, so the filter has not run (nothing is
    added to the trace and the outside world is untouched). *)
Theorem C2_open_record_disabled {E exn FilterArgs : Type} (cfg : build_config)
    (init : keyword.init E) {mixed : mixed_type FilterArgs}
    (L : composite_logger_t E exn FilterArgs) (external : set_t)
    (args : FilterArgs) (w : world E exn FilterArgs) :
  enabled L = false ->
  open_record cfg init L external args w = (returns record_invalid, w).
Proof.
  intros Hoff. unfold open_record. rewrite Hoff. reflexivity.
Qed.

Lemma C2_open_record_disabled_witness :
  open_record sample.cfg sample.init
    (sample.core sample.swallow sample.marking_filter false) sample.message tt sample.start
  = (returns record_invalid, sample.start).
Proof.
  apply (C2_open_record_disabled sample.cfg sample.init
           (sample.core sample.swallow sample.marking_filter false)
           sample.message tt sample.start).
  reflexivity.
Defined.

(** C3. On an enabled core, when the filter returns false on the scoped view
    of the external set and the filter arguments, [open_record] returns the
    invalid record; the only call it has made is that one filter call, so
    [scoped.merge] has not run: the trace holds no merge beyond those it
    already held, and the external set, passed by value, is handed to nobody. *)
Theorem C3_open_record_filtered_out {E exn FilterArgs : Type} (cfg : build_config)
    (init : keyword.init E) {mixed : mixed_type FilterArgs}
    (L : composite_logger_t E exn FilterArgs) (external : set_t)
    (args : FilterArgs) (w : world E exn FilterArgs) (x' : E) :
  enabled L = true ->
  d_filter L (feature.view (scoped L) external) args (outside w) = (returns false, x') ->
  exists w',
    open_record cfg init L external args w = (returns record_invalid, w')
    /\ trace w' = trace w ++ [ev_filter (feature.view (scoped L) external) args (returns false)]
    /\ outside w' = x'
    /\ omap merged (trace w') = omap merged (trace w).
Proof.
  intros Hon Hfilter. unfold open_record. rewrite Hon. simpl.
  rewrite (bind_returns _ _ _ _ _ (invoke_eq _ _ _ _ _ Hfilter)). simpl.
  eexists. split; [reflexivity|]. simpl. repeat split.
  rewrite omap_app. simpl. now rewrite app_nil_r.
Qed.

Lemma C3_open_record_filtered_out_witness :
  exists w',
    open_record sample.cfg sample.init
      (sample.core sample.swallow sample.marking_filter true) sample.message tt sample.start
    = (returns record_invalid, w')
    /\ trace w' = trace sample.start
         ++ [ev_filter
               (feature.view (feature.make_scoped [sample.frame1; sample.frame2]) sample.message)
               tt (returns false)]
    /\ outside w' = [record_invalid]
    /\ omap merged (trace w') = omap merged (trace sample.start).
Proof.
  apply (C3_open_record_filtered_out sample.cfg sample.init
           (sample.core sample.swallow sample.marking_filter true)
           sample.message tt sample.start [record_invalid]).
  - reflexivity.
  - reflexivity.
Defined.

(** On the accepting path the scoped attributes are merged, once. *)
Example open_record_accepted_merges :
  omap merged
    (trace (snd (open_record sample.cfg sample.init
                   (sample.core sample.swallow sample.accept_all true)
                   sample.message tt sample.start)))
  = [sample.message].
Proof. reflexivity. Qed.

(** C10. The overload without attributes opens the record that the main
    overload opens on the empty attribute set, and the overload taking one
    pair opens the record the main overload opens on the set holding exactly
    that pair; outcome and world agree in every world. *)
Theorem C10_open_record_overloads {E exn FilterArgs : Type} (cfg : build_config)
    (init : keyword.init E) {mixed : mixed_type FilterArgs}
    (L : composite_logger_t E exn FilterArgs) (pair : pair_t)
    (args : FilterArgs) (w : world E exn FilterArgs) :
  open_record_args cfg init L args w = open_record cfg init L [] args w
  /\ open_record_pair cfg init L pair args w = open_record cfg init L [pair] args w.
Proof. split; reflexivity. Qed.

(** ** [verbose_logger_t] *)

Section verbose_facts.

Context {E exn Level : Type} {enum : level_type Level}.

(** [populate] never fails, leaves the world alone and ends the internal set
    with the timestamp read from the outside world. *)
Lemma populate_timestamp (cfg : build_config) (init : keyword.init E)
    (internal : set_t) (w : world E exn Level) :
  exists before,
    populate cfg init internal w
    = (returns (before ++ [keyword.assign keyword.timestamp
                             (keyword.init_timestamp init (outside w))]), w).
Proof.
  unfold populate, reserve, emplace_back, bind, read, ret.
  destruct (BLACKHOLE_HAS_ATTRIBUTE_PID cfg), (BLACKHOLE_HAS_ATTRIBUTE_TID cfg),
    (BLACKHOLE_HAS_ATTRIBUTE_LWP cfg); simpl; eexists; reflexivity.
Qed.

(** The severity attribute decodes to the level it was made from. *)
Lemma severity_attribute_level (l : Level) :
  fst (severity_attribute l) = keyword.severity
  /\ severity_of (snd (severity_attribute l)) = Some l.
Proof.
  split; [reflexivity|]. unfold severity_attribute, severity_of. simpl.
  now rewrite of_underlying_underlying.
Qed.

(** The default filter returns the ordinal comparison and touches nothing. *)
Lemma default_filter_eq (T l : Level) (view : combined_view_t) (x : E) :
  @default_filter E exn Level enum T view l x
  = (returns (Z.geb (underlying l) (underlying T)), x).
Proof. reflexivity. Qed.

End verbose_facts.

(** C4. On an enabled verbose logger whose filter is the default filter at
    threshold [T], [open_record(L, external)] returns, and the record is valid
    exactly when the ordinal of [L] is at least the ordinal of [T]; a valid
    record's internal set holds an attribute named severity whose value is
    [L], and the timestamp attribute read at the call. *)
Theorem C4_verbose_open_record_threshold {E exn Level : Type}
    {enum : level_type Level} (cfg : build_config) (init : keyword.init E)
    (v : verbose_logger_t E exn Level) (T L : Level) (external : set_t)
    (w : world E exn Level) :
  enabled (base v) = true ->
  d_filter (base v) = default_filter T ->
  exists r w',
    verbose_open_record cfg init v L external w = (returns r, w')
    /\ (record_valid r = true <-> underlying L >= underlying T)
    /\ (record_valid r = true ->
        (exists value, In (keyword.severity, value) (record_internal r)
                       /\ severity_of value = Some L)
        /\ In (keyword.assign keyword.timestamp (keyword.init_timestamp init (outside w)))
              (record_internal r)).
Proof.
  intros Hon Hfilter. unfold verbose_open_record, open_record.
  rewrite Hon. simpl.
  erewrite bind_returns; cycle 1.
  { apply invoke_eq. rewrite Hfilter. apply default_filter_eq. }
  destruct (Z.geb (underlying L) (underlying T)) eqn:Hcmp; simpl.
  - destruct (populate_timestamp cfg init [] 
                (make_world (trace w ++ [ev_filter (feature.view (scoped (base v)) external) L
                                           (returns true)]) (outside w)))
      as (before & Hpop).
    rewrite (bind_returns _ _ _ _ _ Hpop). simpl in *.
    unfold bind, emit, ret. simpl.
    eexists. eexists. split; [reflexivity|]. simpl. split.
    + split; [intros _|reflexivity]. apply Z.geb_le in Hcmp. lia.
    + intros _. split.
      * exists (snd (severity_attribute L)). split.
        -- unfold emplace_back. apply in_or_app. right. left. reflexivity.
        -- apply severity_attribute_level.
      * unfold emplace_back. apply in_or_app. left. apply in_or_app. right. now left.
  - unfold ret. eexists. eexists. split; [reflexivity|]. simpl. split.
    + split; [discriminate|]. intros Hge.
      assert (Z.geb (underlying L) (underlying T) = true) as Habs
        by (apply Z.geb_le; lia).
      congruence.
    + discriminate.
Qed.

Lemma C4_verbose_open_record_threshold_witness :
  exists r w',
    verbose_open_record sample.cfg sample.init
      (verbose_logger_t_new sample.swallow sample.WARNING) sample.ERROR
      sample.message sample.start_verbose
    = (returns r, w')
    /\ (record_valid r = true <-> underlying sample.ERROR >= underlying sample.WARNING)
    /\ (record_valid r = true ->
        (exists value, In (keyword.severity, value) (record_internal r)
                       /\ severity_of value = Some sample.ERROR)
        /\ In (keyword.assign keyword.timestamp
                 (keyword.init_timestamp sample.init (outside sample.start_verbose)))
              (record_internal r)).
Proof.
  apply (C4_verbose_open_record_threshold sample.cfg sample.init
           (verbose_logger_t_new sample.swallow sample.WARNING)
           sample.WARNING sample.ERROR sample.message sample.start_verbose).
  - reflexivity.
  - reflexivity.
Defined.

(** The scenario of the specification: threshold WARNING, INFO is rejected,
    ERROR is accepted with severity ERROR. *)
Example verbose_info_below_warning :
  fst (verbose_open_record sample.cfg sample.init
         (verbose_logger_t_new sample.swallow sample.WARNING) sample.INFO
         sample.message sample.start_verbose)
  = returns record_invalid.
Proof. reflexivity. Qed.

Example verbose_error_above_warning :
  fst (verbose_open_record sample.cfg sample.init
         (verbose_logger_t_new sample.swallow sample.WARNING) sample.ERROR
         sample.message sample.start_verbose)
  = returns
      (record
         [keyword.assign keyword.pid (owned_t_of_int 4242);
          keyword.assign keyword.timestamp (owned_t_of_int 0);
          severity_attribute sample.ERROR]
         (sample.message)).
Proof. reflexivity. Qed.

(** C7. [set_filter(L)] installs the default filter at threshold [L] and
    [verbosity()] then returns [L]; [set_filter(L, custom)] installs [custom]
    as it is and [verbosity()] then returns [L] all the same. *)
Theorem C7_verbose_set_filter {E exn Level : Type} {enum : level_type Level}
    (v : verbose_logger_t E exn Level) (L : Level)
    (custom : filter_type E exn Level) :
  (d_filter (base (verbose_set_filter L v)) = default_filter L
   /\ verbosity (verbose_set_filter L v) = L)
  /\ (d_filter (base (verbose_set_filter_with L custom v)) = custom
      /\ verbosity (verbose_set_filter_with L custom v) = L).
Proof.
  unfold verbose_set_filter, verbose_set_filter_with, verbosity. simpl.
  rewrite of_underlying_underlying. repeat split.
Qed.

(** The threshold that is recorded and the predicate that is installed may
    disagree: with threshold ERROR and a predicate that accepts everything,
    a DEBUG record is opened. *)
Example verbose_custom_filter_ignores_threshold :
  let v := verbose_set_filter_with sample.ERROR sample.accept_all
             (verbose_logger_t_new sample.swallow sample.WARNING) in
  verbosity v = sample.ERROR
  /\ record_valid
       match fst (verbose_open_record sample.cfg sample.init v sample.DEBUG []
                    sample.start_verbose) with
       | returns r => r
       | throws _ => record_invalid
       end = true.
Proof. split; reflexivity. Qed.

(** ** Move assignment *)

(** What [operator=] exchanges and what it leaves in place. *)
Lemma move_assign_fields {E exn FilterArgs : Type}
    (this other : composite_logger_t E exn FilterArgs) :
  let this' := fst (move_assign this other) in
  let other' := snd (move_assign this other) in
  (enabled this' = enabled other /\ enabled other' = enabled this)
  /\ (d_filter this' = d_filter other /\ d_filter other' = d_filter this)
  /\ (d_frontends this' = d_frontends other /\ d_frontends other' = d_frontends this)
  /\ (scoped this' = scoped other /\ scoped other' = scoped this)
  /\ (d_exception this' = d_exception this /\ d_exception other' = d_exception other).
Proof. simpl. repeat split. Qed.

(** C6, at a failing input. The destination is a disabled core with the two
    sample frontends, two scoped frames, the accepting filter and the
    swallowing exception handler; the source is a fresh enabled core with the
    rejecting filter and the handler that throws again. After the move
    assignment the destination holds the source's flag, filter, frontends and
    scoped state, but still its own exception handler, which is not the
    source's. *)
Theorem C6_move_assign_keeps_exception_handler :
  let this := sample.core sample.swallow sample.accept_all false in
  let other := sample.fresh in
  let this' := fst (move_assign this other) in
  enabled this' = enabled other
  /\ d_filter this' = d_filter other
  /\ d_frontends this' = d_frontends other
  /\ scoped this' = scoped other
  /\ d_exception this' = d_exception this
  /\ d_exception this' 7%nat [] = (returns tt, [])
  /\ d_exception other 7%nat [] = (throws 7%nat, [])
  /\ d_exception this' <> d_exception other.
Proof.
  simpl. repeat split.
  intros Heq.
  assert (sample.swallow 7%nat [] = sample.rethrow 7%nat []) as Habs
    by now rewrite Heq.
  discriminate Habs.
Qed.

(** ** Attribute values *)

(** Both casts to [int64_t] are the identity on [int]. *)
Lemma static_cast_int64_int (val : Z) :
  - 2 ^ 31 <= val < 2 ^ 31 -> static_cast_int64 val = val.
Proof.
  intros H. unfold static_cast_int64.
  rewrite Z.mod_small; lia.
Qed.

(** C5 (as amended). Every alternative of the borrowing variant has its
    counterpart among the alternatives of the owning variant, [into_owned]
    sending the text view to the owned string and the numbers to themselves;
    so for every borrowing value there is an owning value that holds the same
    datum under the counterpart alternative, the viewed characters copied
    into a string of its own. Constructing a borrowing value from an owning
    one is not ruled out: [value_t] has a constructor from [const owned_t&]. *)
Theorem C5_owned_counterparts_and_constructors :
  (forall v : value_t, In (into_owned (value_which v)) owned_t_types)
  /\ (forall v : value_t,
        exists o : owned_t,
          same_datum v o /\ owned_which o = into_owned (value_which v))
  /\ constructible_from value_t_constructors t_owned_cref = true.
Proof.
  split; [|split].
  - intros [[n|x|view]]; simpl; auto.
  - intros [[n|x|view]].
    + exists (make_owned (owned_int64 n)). split; reflexivity.
    + exists (make_owned (owned_double x)). split; reflexivity.
    + exists (make_owned (owned_string (sv_chars view))). split; reflexivity.
  - reflexivity.
Qed.

(** C5, the claim as stated, fails on both counts: the header declares the
    construction of a borrowing value from an owning one, and no constructor
    of the owning value takes a borrowing one. *)
Lemma C5_view_constructible_from_owned :
  constructible_from value_t_constructors t_owned_cref = true
  /\ constructible_from owned_t_constructors t_value_cref = false.
Proof. split; reflexivity. Qed.

(** ** Registry and builder *)

Section registry_facts.

Context {sink_t handler_t formatter_t : Type}.

Implicit Types (r : registry.registry_t sink_t handler_t formatter_t).

(** Resolution fails with NotFound and nothing else. *)
Lemma resolve_sinks_failed r nodes e :
  registry.resolve_sinks r nodes = registry.failed e -> e = registry.NotFound.
Proof.
  induction nodes as [|n rest IH]; simpl; [discriminate|].
  unfold registry.sink.
  destruct (registry.sinks r !! registry.node_type n) as [factory|]; simpl.
  - destruct (registry.resolve_sinks r rest) as [resolved|e']; simpl.
    + discriminate.
    + intros [= <-]. now apply IH.
  - now intros [= <-].
Qed.

Lemma resolve_handler_failed r h e :
  registry.resolve_handler r h = registry.failed e -> e = registry.NotFound.
Proof.
  unfold registry.resolve_handler, registry.handler, registry.formatter.
  destruct (registry.handlers r !! _) as [hf|]; simpl; [|now intros [= <-]].
  destruct (registry.formatters r !! _) as [ff|]; simpl; [|now intros [= <-]].
  destruct (registry.resolve_sinks r _) as [resolved|e'] eqn:Hs; simpl.
  - discriminate.
  - intros [= <-]. exact (resolve_sinks_failed r _ e' Hs).
Qed.

Lemma resolve_handlers_failed r config e :
  registry.resolve_handlers r config = registry.failed e -> e = registry.NotFound.
Proof.
  induction config as [|h rest IH]; simpl; [discriminate|].
  destruct (registry.resolve_handler r h) as [a|e'] eqn:Hh; simpl.
  - destruct (registry.resolve_handlers r rest) as [resolved|e'']; simpl.
    + discriminate.
    + intros [= <-]. now apply IH.
  - intros [= <-]. exact (resolve_handler_failed r h e' Hh).
Qed.

(** Resolution succeeds only when every name is registered. *)
Lemma resolve_sinks_ok r nodes resolved :
  registry.resolve_sinks r nodes = registry.ok resolved ->
  forall node, In node nodes -> registry.sinks r !! registry.node_type node <> None.
Proof.
  revert resolved. induction nodes as [|n rest IH]; intros resolved Hres node Hin.
  - destruct Hin.
  - simpl in Hres. unfold registry.sink in Hres.
    destruct (registry.sinks r !! registry.node_type n) as [factory|] eqn:Hlook;
      simpl in Hres; [|discriminate].
    destruct (registry.resolve_sinks r rest) as [resolved'|] eqn:Hrest;
      simpl in Hres; [|discriminate].
    destruct Hin as [<-|Hin].
    + congruence.
    + now apply (IH resolved').
Qed.

Lemma resolve_handler_ok r h a :
  registry.resolve_handler r h = registry.ok a ->
  ~ registry.handler_node_unregistered r h.
Proof.
  unfold registry.resolve_handler, registry.handler, registry.formatter.
  intros Hres.
  destruct (registry.handlers r !! _) as [hf|] eqn:Hh; simpl in Hres; [|discriminate].
  destruct (registry.formatters r !! _) as [ff|] eqn:Hf; simpl in Hres; [|discriminate].
  destruct (registry.resolve_sinks r _) as [resolved|] eqn:Hs; simpl in Hres; [|discriminate].
  intros [Hun|[Hun|(node & Hin & Hun)]]; try congruence.
  now apply (resolve_sinks_ok r _ resolved Hs node Hin).
Qed.

Lemma resolve_handlers_ok r config resolved :
  registry.resolve_handlers r config = registry.ok resolved ->
  ~ registry.references_unregistered r config.
Proof.
  revert resolved.
  induction config as [|h rest IH]; intros resolved Hres (h' & Hin & Hun).
  - destruct Hin.
  - simpl in Hres.
    destruct (registry.resolve_handler r h) as [a|] eqn:Hh; simpl in Hres; [|discriminate].
    destruct (registry.resolve_handlers r rest) as [resolved'|] eqn:Hrest;
      simpl in Hres; [|discriminate].
    destruct Hin as [<-|Hin].
    + now apply (resolve_handler_ok r h a).
    + apply (IH resolved' eq_refl). now exists h'.
Qed.

End registry_facts.



(** The scenario of the specification: on the empty registry the lookup of
    the sink type file fails with NotFound, and so does building a logger
    that writes to a file sink. *)
Example build_on_empty_registry_not_found :
  registry.sink (@registry.empty string string string) "file"
  = registry.failed registry.NotFound
  /\ registry.build
       (registry.builder (@registry.empty string string string) sample.file_config)
       "app"
     = registry.failed registry.NotFound.
Proof. split; reflexivity. Qed.

(** On a populated registry that lacks only the sink type file. *)
Example build_file_sink_not_found :
  registry.is_ok (registry.sink sample.a_registry "file") = false
  /\ registry.build (registry.builder sample.a_registry sample.file_config) "app"
     = registry.failed registry.NotFound.
Proof. split; reflexivity. Qed.

(** A document whose names are all registered does build. *)
Example build_console_sink :
  registry.build
    (registry.builder sample.a_registry
       [registry.make_handler_node sample.blocking sample.pattern [sample.console]])
    "app"
  = registry.ok
      (registry.make_root_logger "app"
         [registry.make_assembled "blocking"%string "{message}"%string
            ["console"%string]]).
Proof. reflexivity. Qed.

(** When every name is registered, a factory's configuration error is what
    [build] fails with. *)
Example build_malformed_formatter :
  registry.build
    (registry.builder sample.a_registry
       [registry.make_handler_node sample.blocking sample.no_pattern [sample.console]])
    "app"
  = registry.failed (registry.ConfigurationError "pattern").
Proof. reflexivity. Qed.

(* ===================================================================== *)
(** * Part III: further properties of the code *)
(* ===================================================================== *)

(** ** [push], whatever the exception handler does *)

Section push_paths.

Context {E exn FilterArgs : Type}.

Implicit Types (w : world E exn FilterArgs) (r : record_t).

(** The turn of a frontend whose [handle] returns, or whose [handle] throws
    and is followed by an exception handler that returns. *)
Lemma turn_returns (exception : exception_handler_t E exn) it r (x x1 : E) :
  handle it r x = (returns tt, x1) -> turn exception r x it = x1.
Proof. intros H. unfold turn. now rewrite H. Qed.

Lemma turn_handled (exception : exception_handler_t E exn) it r (x x1 x2 : E) e0 :
  handle it r x = (throws e0, x1) -> exception e0 x1 = (returns tt, x2) ->
  turn exception r x it = x2.
Proof. intros Hh He. unfold turn. now rewrite Hh, He. Qed.

Lemma push_from_paths (exception : exception_handler_t E exn) frontends :
  forall i r w,
    match fst (push_from i frontends exception r w) with
    | returns _ =>
        exists blocks,
          snd (push_from i frontends exception r w)
          = make_world (trace w ++ concat blocks)
              (fold_left (turn exception r) frontends (outside w))
          /\ length blocks = length frontends
          /\ (forall j, (j < length frontends)%nat ->
                iteration (i + j) r (nth j blocks []))
    | throws e =>
        exists before it after e0 x1 x2 blocks,
          frontends = before ++ it :: after
          /\ handle it r (fold_left (turn exception r) before (outside w))
             = (throws e0, x1)
          /\ exception e0 x1 = (throws e, x2)
          /\ snd (push_from i frontends exception r w)
             = make_world
                 (trace w ++ concat blocks
                  ++ [ev_handle (i + length before) r (throws e0);
                      ev_exception (i + length before) e0 (throws e)])
                 x2
          /\ length blocks = length before
          /\ (forall j, (j < length before)%nat ->
                iteration (i + j) r (nth j blocks []))
    end.
Proof.
  induction frontends as [|it rest IH]; intros i r w.
  - simpl. exists []. simpl. rewrite app_nil_r. destruct w.
    repeat split. intros j Hj. inversion Hj.
  - simpl push_from. unfold bind, try_catch, invoke.
    destruct (handle it r (outside w)) as [[[]|e0] x1] eqn:Hh.
    + pose proof (turn_returns exception it r _ _ Hh) as Hturn.
      specialize (IH (S i) r (make_world (trace w ++ [ev_handle i r (returns tt)]) x1)).
      destruct (push_from (S i) rest exception r _) as [[[]|e] w2]; simpl in IH |- *.
      * destruct IH as (blocks & -> & Hlen & Hnth).
        exists ([ev_handle i r (returns tt)] :: blocks). simpl.
        rewrite Hturn, <- app_assoc. repeat split.
        -- now rewrite Hlen.
        -- intros [|j] Hj.
           ++ rewrite Nat.add_0_r. now left.
           ++ replace (i + S j)%nat with (S i + j)%nat by lia. apply Hnth. lia.
      * destruct IH as (before & it' & after & e1 & y1 & y2 & blocks
                        & -> & Hh' & He' & -> & Hlen & Hnth).
        exists (it :: before), it', after, e1, y1, y2,
          ([ev_handle i r (returns tt)] :: blocks). simpl.
        rewrite Hturn, <- !app_assoc.
        replace (i + S (length before))%nat with (S i + length before)%nat by lia.
        repeat split; try assumption.
        -- now rewrite Hlen.
        -- intros [|j] Hj.
           ++ rewrite Nat.add_0_r. now left.
           ++ replace (i + S j)%nat with (S i + j)%nat by lia. apply Hnth. lia.
    + simpl. destruct (exception e0 x1) as [[[]|e] x2] eqn:He.
      * pose proof (turn_handled exception it r _ _ _ _ Hh He) as Hturn.
        specialize (IH (S i) r
                      (make_world ((trace w ++ [ev_handle i r (throws e0)])
                                   ++ [ev_exception i e0 (returns tt)]) x2)).
        destruct (push_from (S i) rest exception r _) as [[[]|e] w2]; simpl in IH |- *.
        -- destruct IH as (blocks & -> & Hlen & Hnth).
           exists ([ev_handle i r (throws e0); ev_exception i e0 (returns tt)] :: blocks).
           simpl. rewrite Hturn, <- !app_assoc. repeat split.
           ++ now rewrite Hlen.
           ++ intros [|j] Hj.
              ** rewrite Nat.add_0_r. right. now exists e0.
              ** replace (i + S j)%nat with (S i + j)%nat by lia. apply Hnth. lia.
        -- destruct IH as (before & it' & after & e1 & y1 & y2 & blocks
                           & -> & Hh' & He' & -> & Hlen & Hnth).
           exists (it :: before), it', after, e1, y1, y2,
             ([ev_handle i r (throws e0); ev_exception i e0 (returns tt)] :: blocks).
           simpl. rewrite Hturn, <- !app_assoc.
           replace (i + S (length before))%nat with (S i + length before)%nat by lia.
           repeat split; try assumption.
           ++ now rewrite Hlen.
           ++ intros [|j] Hj.
              ** rewrite Nat.add_0_r. right. now exists e0.
              ** replace (i + S j)%nat with (S i + j)%nat by lia. apply Hnth. lia.
      * exists [], it, rest, e0, x1, x2, []. simpl.
        rewrite Nat.add_0_r, <- app_assoc. repeat split; try assumption.
        intros j Hj. inversion Hj.
Qed.

(** X1. [push] either returns or throws. When it returns, every attached
    frontend has had its turn in attachment order: the outside world is the
    one obtained by running the frontends' turns one after the other, and the
    trace holds one block of calls per frontend. When it throws, the
    frontends split into those before a frontend [it], [it] itself and those
    after it: the frontends before [it] have had their turns in order,
    [handle] of [it] threw in the world they left, the exception handler
    threw in turn, what [push] throws is what the handler threw, and the
    world is left as the handler left it, so the frontends after [it] have
    not run. *)
Theorem push_outcome (L : composite_logger_t E exn FilterArgs) r w :
  match fst (push L r w) with
  | returns _ =>
      exists blocks,
        snd (push L r w)
        = make_world (trace w ++ concat blocks)
            (fold_left (turn (d_exception L) r) (d_frontends L) (outside w))
        /\ length blocks = length (d_frontends L)
        /\ (forall j, (j < length (d_frontends L))%nat ->
              iteration j r (nth j blocks []))
  | throws e =>
      exists before it after e0 x1 x2 blocks,
        d_frontends L = before ++ it :: after
        /\ handle it r (fold_left (turn (d_exception L) r) before (outside w))
           = (throws e0, x1)
        /\ d_exception L e0 x1 = (throws e, x2)
        /\ snd (push L r w)
           = make_world
               (trace w ++ concat blocks
                ++ [ev_handle (length before) r (throws e0);
                    ev_exception (length before) e0 (throws e)])
               x2
        /\ length blocks = length before
        /\ (forall j, (j < length before)%nat -> iteration j r (nth j blocks []))
  end.
Proof. exact (push_from_paths (d_exception L) (d_frontends L) 0%nat r w). Qed.

(** The loop over a list with one more frontend at its end. *)
Lemma push_from_snoc (exception : exception_handler_t E exn) frontends it :
  forall i r w,
    push_from i (frontends ++ [it]) exception r w
    = bind (push_from i frontends exception r)
        (fun _ => push_from (i + length frontends) [it] exception r) w.
Proof.
  induction frontends as [|f rest IH]; intros i r w.
  - cbn [app length]. rewrite Nat.add_0_r. reflexivity.
  - cbn [app length push_from].
    replace (i + S (length rest))%nat with (S i + length rest)%nat by lia.
    unfold bind at 1 2 3.
    destruct (try_catch _ _ w) as [[[]|e] w1]; [|reflexivity].
    apply IH.
Qed.

(** X2. A frontend attached with [add_frontend] is served last: a push on the
    extended core is the push on the original core followed, if that
    returned, by the turn of the new frontend at the next position; if the
    original push throws, the new frontend is not called. *)
Theorem push_add_frontend (L : composite_logger_t E exn FilterArgs)
    (frontend : base_frontend_t E exn) r w :
  push (add_frontend frontend L) r w
  = bind (push L r)
      (fun _ => push_from (length (d_frontends L)) [frontend] (d_exception L) r) w.
Proof. unfold push. simpl. apply push_from_snoc. Qed.

End push_paths.

(** ** [open_record], the accepting and the throwing path *)

Section open_record_paths.

Context {E exn FilterArgs : Type}.
Context (cfg : build_config) (init : keyword.init E) {mixed : mixed_type FilterArgs}.

Implicit Types (w : world E exn FilterArgs) (L : composite_logger_t E exn FilterArgs).

(** [populate] as one list expression. *)
Lemma populate_eq (internal : set_t) w :
  populate cfg init internal w
  = (returns (internal ++ process_attributes cfg init (outside w)), w).
Proof.
  unfold populate, process_attributes, reserve, emplace_back, keyword.assign,
    bind, read, ret.
  destruct (BLACKHOLE_HAS_ATTRIBUTE_PID cfg), (BLACKHOLE_HAS_ATTRIBUTE_TID cfg),
    (BLACKHOLE_HAS_ATTRIBUTE_LWP cfg); simpl; rewrite <- ?app_assoc; reflexivity.
Qed.

(** The accepting path of [open_record], step by step. *)
Lemma open_record_accepted_eq L (external : set_t) (args : FilterArgs) w (x' : E) :
  enabled L = true ->
  d_filter L (feature.view (scoped L) external) args (outside w) = (returns true, x') ->
  open_record cfg init L external args w
  = (returns (record (populate_additional (process_attributes cfg init x') args)
                     (feature.merge (scoped L) external)),
     make_world
       (trace w ++ [ev_filter (feature.view (scoped L) external) args (returns true);
                    ev_merge external])
       x').
Proof.
  intros Hon Hfilter. unfold open_record. rewrite Hon. simpl.
  rewrite (bind_returns _ _ _ _ _ (invoke_eq _ _ _ _ _ Hfilter)). simpl.
  rewrite (bind_returns _ _ _ _ _ (populate_eq [] _)).
  unfold bind, emit, ret, reserve. simpl. now rewrite <- app_assoc.
Qed.

(** X3. [populate] returns, leaves the world alone, keeps what the set held
    and appends the process attributes the build enables, in the order pid,
    tid, lwp, with the timestamp last. *)
Theorem populate_appends_process_attributes (internal : set_t) w :
  populate cfg init internal w
  = (returns (internal ++ process_attributes cfg init (outside w)), w).
Proof. exact (populate_eq internal w). Qed.

(** X4. When the core is enabled and the filter returns true, [open_record]
    returns a valid record: its internal set is the process attributes, read
    in the world as the filter left it, followed by what the subtype adds;
    its external set is the scoped merge of the caller's set; the calls made
    are the one filter call and the one merge. *)
Theorem open_record_accepted L (external : set_t) (args : FilterArgs) w (x' : E) :
  enabled L = true ->
  d_filter L (feature.view (scoped L) external) args (outside w) = (returns true, x') ->
  open_record cfg init L external args w
  = (returns (record (populate_additional (process_attributes cfg init x') args)
                     (feature.merge (scoped L) external)),
     make_world
       (trace w ++ [ev_filter (feature.view (scoped L) external) args (returns true);
                    ev_merge external])
       x').
Proof. exact (open_record_accepted_eq L external args w x'). Qed.

(** X5. [open_record] has no handler around the filter: when the core is
    enabled and the filter throws, the exception reaches the caller of
    [open_record]; no record is made and nothing is merged. *)
Theorem open_record_filter_throws L (external : set_t) (args : FilterArgs) w
    (e : exn) (x' : E) :
  enabled L = true ->
  d_filter L (feature.view (scoped L) external) args (outside w) = (throws e, x') ->
  open_record cfg init L external args w
  = (throws e,
     make_world
       (trace w ++ [ev_filter (feature.view (scoped L) external) args (throws e)])
       x').
Proof.
  intros Hon Hfilter. unfold open_record. rewrite Hon. simpl.
  now rewrite (bind_throws _ _ _ _ _ (invoke_eq _ _ _ _ _ Hfilter)).
Qed.

(** X6. Opening a record and pushing it: on an enabled core whose filter
    returns true and whose exception handler returns, every attached frontend
    receives, once and in attachment order, the record made of the process
    and subtype attributes and the scoped merge of the caller's set, and the
    whole call returns. *)
Theorem open_record_then_push L (external : set_t) (args : FilterArgs) w (x' : E) :
  enabled L = true ->
  d_filter L (feature.view (scoped L) external) args (outside w) = (returns true, x') ->
  (forall e x, fst (d_exception L e x) = returns tt) ->
  let opened_record :=
    record (populate_additional (process_attributes cfg init x') args)
           (feature.merge (scoped L) external) in
  exists blocks,
    bind (open_record cfg init L external args) (push L) w
    = (returns tt,
       make_world
         (trace w
          ++ [ev_filter (feature.view (scoped L) external) args (returns true);
              ev_merge external]
          ++ concat blocks)
         (fold_left (turn (d_exception L) opened_record) (d_frontends L) x'))
    /\ length blocks = length (d_frontends L)
    /\ (forall i, (i < length (d_frontends L))%nat ->
          iteration i opened_record (nth i blocks [])).
Proof.
  intros Hon Hfilter Hexc opened_record.
  rewrite (bind_returns _ _ _ _ _ (open_record_accepted_eq L external args w x' Hon Hfilter)).
  fold opened_record. unfold push.
  destruct (push_from_blocks (d_exception L) (d_frontends L) Hexc 0%nat opened_record
              (make_world
                 (trace w ++ [ev_filter (feature.view (scoped L) external) args (returns true);
                              ev_merge external]) x'))
    as (blocks & Hrun & Hlen & Hnth).
  exists blocks. rewrite Hrun. simpl. rewrite <- app_assoc. repeat split; assumption.
Qed.

(** X7. The two halves of the core do not see each other's settings: a push
    is the same whatever the enabled flag and the filter are (a disabled core
    still dispatches what it is handed), and opening a record is the same
    whatever frontends are attached and whatever the exception handler is. *)
Theorem open_and_push_independent L (external : set_t) (args : FilterArgs)
    (r : record_t) w (enable : bool) (filter : filter_type E exn FilterArgs)
    (frontend : base_frontend_t E exn) (handler : exception_handler_t E exn) :
  (push (set_enabled enable L) r w = push L r w
   /\ push (set_filter filter L) r w = push L r w)
  /\ (open_record cfg init (add_frontend frontend L) external args w
      = open_record cfg init L external args w
      /\ open_record cfg init (set_exception_handler handler L) external args w
         = open_record cfg init L external args w).
Proof. repeat split. Qed.

End open_record_paths.

Lemma open_record_accepted_witness :
  open_record sample.cfg sample.init sample.quiet_core sample.message tt sample.start
  = (returns (record (populate_additional
                        (process_attributes sample.cfg sample.init []) tt)
                     (feature.merge (scoped sample.quiet_core) sample.message)),
     make_world
       (trace sample.start
        ++ [ev_filter (feature.view (scoped sample.quiet_core) sample.message) tt
              (returns true);
            ev_merge sample.message])
       []).
Proof.
  apply (open_record_accepted sample.cfg sample.init sample.quiet_core
           sample.message tt sample.start []).
  - reflexivity.
  - reflexivity.
Defined.

Lemma open_record_filter_throws_witness :
  open_record sample.cfg sample.init
    (sample.core sample.swallow sample.throwing_filter true) sample.message tt sample.start
  = (throws 9%nat,
     make_world
       (trace sample.start
        ++ [ev_filter
              (feature.view (feature.make_scoped [sample.frame1; sample.frame2])
                 sample.message)
              tt (throws 9%nat)])
       []).
Proof.
  apply (open_record_filter_throws sample.cfg sample.init
           (sample.core sample.swallow sample.throwing_filter true)
           sample.message tt sample.start 9%nat []).
  - reflexivity.
  - reflexivity.
Defined.

Lemma open_record_then_push_witness :
  exists blocks,
    bind (open_record sample.cfg sample.init sample.quiet_core sample.message tt)
      (push sample.quiet_core) sample.start
    = (returns tt,
       make_world
         (trace sample.start
          ++ [ev_filter (feature.view (scoped sample.quiet_core) sample.message) tt
                (returns true);
              ev_merge sample.message]
          ++ concat blocks)
         (fold_left
            (turn sample.swallow
               (record (populate_additional
                          (process_attributes sample.cfg sample.init []) tt)
                       (feature.merge (scoped sample.quiet_core) sample.message)))
            [sample.recording_frontend] []))
    /\ length blocks = 1%nat
    /\ (forall i, (i < 1)%nat ->
          iteration i
            (record (populate_additional
                       (process_attributes sample.cfg sample.init []) tt)
                    (feature.merge (scoped sample.quiet_core) sample.message))
            (nth i blocks [])).
Proof.
  apply (open_record_then_push sample.cfg sample.init sample.quiet_core
           sample.message tt sample.start []).
  - reflexivity.
  - reflexivity.
  - intros e x. reflexivity.
Defined.

(** ** Move assignment, again *)

(** X8. Move assignment exchanges: assigning the two cores back restores
    both of them exactly, and assigning in the opposite direction yields the
    same two states with their roles exchanged. *)
Theorem move_assign_exchanges {E exn FilterArgs : Type}
    (this other : composite_logger_t E exn FilterArgs) :
  move_assign (fst (move_assign this other)) (snd (move_assign this other))
  = (this, other)
  /\ move_assign other this
     = (snd (move_assign this other), fst (move_assign this other)).
Proof. destruct this, other. split; reflexivity. Qed.

Section verbose_move_facts.

Context {E exn Level : Type} {enum : level_type Level}.

Implicit Types (v this other : verbose_logger_t E exn Level).

(** What move assignment does to the two levels and the two filters. *)
Lemma verbose_move_assign_levels this other :
  let moved := verbose_move_assign this other in
  (verbosity (fst moved) = verbosity other
   /\ d_filter (base (fst moved)) = d_filter (base other))
  /\ (verbosity (snd moved) = verbosity other
      /\ d_filter (base (snd moved)) = d_filter (base this)).
Proof. repeat split. Qed.

(** X10. The constructor and [set_filter(level)] leave the logger with the
    default filter at the level [verbosity()] reports, and move assignment
    hands that agreement from the source to the destination. *)
Theorem threshold_in_force_kept
    (default_exception_handler_t : exception_handler_t E exn) (T : Level) v this other :
  threshold_in_force (verbose_logger_t_new default_exception_handler_t T)
  /\ threshold_in_force (verbose_set_filter T v)
  /\ (threshold_in_force other ->
      threshold_in_force (fst (verbose_move_assign this other))).
Proof.
  unfold threshold_in_force, verbosity. simpl.
  rewrite of_underlying_underlying. repeat split. intros H. exact H.
Qed.

(** Whether a record is opened under the default filter is the comparison of
    the two ordinals, whatever the attributes, the scoped frames, the build
    and the world. *)
Lemma verbose_opened_by_ordinal (cfg : build_config) (init : keyword.init E) v
    (T L : Level) (external : set_t) (w : world E exn Level) :
  enabled (base v) = true ->
  d_filter (base v) = default_filter T ->
  opened (verbose_open_record cfg init v L external w)
  = Z.geb (underlying L) (underlying T).
Proof.
  intros Hon Hfilter. unfold verbose_open_record.
  assert (d_filter (base v) (feature.view (scoped (base v)) external) L (outside w)
          = (returns (Z.geb (underlying L) (underlying T)), outside w)) as Hverdict.
  { rewrite Hfilter. apply default_filter_eq. }
  destruct (Z.geb (underlying L) (underlying T)) eqn:Hcmp.
  - now rewrite (open_record_accepted_eq cfg init (base v) external L w (outside w) Hon Hverdict).
  - unfold open_record. rewrite Hon. simpl.
    now rewrite (bind_returns _ _ _ _ _ (invoke_eq _ _ _ _ _ Hverdict)).
Qed.

(** X9. After [this = std::move(other)] on two enabled verbose loggers, each
    with the default filter at its own level, both report the level [other]
    had. The destination opens records against that level; the moved-from
    logger opens them against the level the destination had before, which is
    not the one it reports. *)
Theorem verbose_move_assign_thresholds (cfg : build_config) (init : keyword.init E)
    this other (L : Level) (external : set_t) (w : world E exn Level) :
  enabled (base this) = true -> threshold_in_force this ->
  enabled (base other) = true -> threshold_in_force other ->
  let moved := verbose_move_assign this other in
  (verbosity (fst moved) = verbosity other
   /\ opened (verbose_open_record cfg init (fst moved) L external w)
      = Z.geb (underlying L) (underlying (verbosity other)))
  /\ (verbosity (snd moved) = verbosity other
      /\ opened (verbose_open_record cfg init (snd moved) L external w)
         = Z.geb (underlying L) (underlying (verbosity this))).
Proof.
  intros Hon_this Hthis Hon_other Hother moved.
  split; (split; [reflexivity|]).
  - apply verbose_opened_by_ordinal; [exact Hon_other | exact Hother].
  - apply verbose_opened_by_ordinal; [exact Hon_this | exact Hthis].
Qed.

End verbose_move_facts.

Lemma verbose_move_assign_thresholds_witness :
  let moved := verbose_move_assign
                 (verbose_logger_t_new sample.swallow sample.DEBUG)
                 (verbose_logger_t_new sample.rethrow sample.ERROR) in
  (verbosity (fst moved) = sample.ERROR
   /\ opened (verbose_open_record sample.cfg sample.init (fst moved) sample.INFO
                sample.message sample.start_verbose)
      = Z.geb (underlying sample.INFO) (underlying sample.ERROR))
  /\ (verbosity (snd moved) = sample.ERROR
      /\ opened (verbose_open_record sample.cfg sample.init (snd moved) sample.INFO
                   sample.message sample.start_verbose)
         = Z.geb (underlying sample.INFO) (underlying sample.DEBUG)).
Proof.
  exact (verbose_move_assign_thresholds sample.cfg sample.init
           (verbose_logger_t_new sample.swallow sample.DEBUG)
           (verbose_logger_t_new sample.rethrow sample.ERROR)
           sample.INFO sample.message sample.start_verbose
           eq_refl eq_refl eq_refl eq_refl).
Defined.

Lemma threshold_in_force_kept_witness :
  threshold_in_force
    (fst (verbose_move_assign
            (verbose_logger_t_new sample.swallow sample.DEBUG)
            (verbose_logger_t_new sample.rethrow sample.ERROR))).
Proof.
  apply (threshold_in_force_kept sample.swallow sample.ERROR
           (verbose_logger_t_new sample.swallow sample.DEBUG)
           (verbose_logger_t_new sample.swallow sample.DEBUG)
           (verbose_logger_t_new sample.rethrow sample.ERROR)).
  reflexivity.
Defined.

(** The moved-from logger is left reporting a level its filter does not
    apply: it reports ERROR and opens a DEBUG record. *)
Example moved_from_logger_disagrees :
  let moved := verbose_move_assign
                 (verbose_logger_t_new sample.swallow sample.DEBUG)
                 (verbose_logger_t_new sample.rethrow sample.ERROR) in
  verbosity (snd moved) = sample.ERROR
  /\ opened (verbose_open_record sample.cfg sample.init (snd moved) sample.DEBUG []
               sample.start_verbose) = true.
Proof. split; reflexivity. Qed.

(** X11. Under the default filter acceptance only grows with the level and
    only shrinks with the threshold: if a record is opened at level [L1]
    against threshold [T1], then one is opened at any level at least [L1]
    against any threshold at most [T1], on any enabled logger, with any
    attributes, in any world. *)
Theorem default_filter_monotone {E exn Level : Type} {enum : level_type Level}
    (cfg1 cfg2 : build_config) (init1 init2 : keyword.init E)
    (v1 v2 : verbose_logger_t E exn Level) (T1 T2 L1 L2 : Level)
    (external1 external2 : set_t) (w1 w2 : world E exn Level) :
  enabled (base v1) = true -> d_filter (base v1) = default_filter T1 ->
  enabled (base v2) = true -> d_filter (base v2) = default_filter T2 ->
  underlying T2 <= underlying T1 ->
  underlying L1 <= underlying L2 ->
  opened (verbose_open_record cfg1 init1 v1 L1 external1 w1) = true ->
  opened (verbose_open_record cfg2 init2 v2 L2 external2 w2) = true.
Proof.
  intros Hon1 Hf1 Hon2 Hf2 HT HL.
  rewrite (verbose_opened_by_ordinal cfg1 init1 v1 T1 L1 external1 w1 Hon1 Hf1).
  rewrite (verbose_opened_by_ordinal cfg2 init2 v2 T2 L2 external2 w2 Hon2 Hf2).
  rewrite !Z.geb_le. lia.
Qed.

Lemma default_filter_monotone_witness :
  opened (verbose_open_record sample.cfg sample.init
            (verbose_logger_t_new sample.rethrow sample.INFO) sample.ERROR
            [] sample.start_verbose) = true.
Proof.
  apply (default_filter_monotone sample.cfg sample.cfg sample.init sample.init
           (verbose_logger_t_new sample.swallow sample.WARNING)
           (verbose_logger_t_new sample.rethrow sample.INFO)
           sample.WARNING sample.INFO sample.WARNING sample.ERROR
           sample.message [] sample.start_verbose sample.start_verbose).
  - reflexivity.
  - reflexivity.
  - reflexivity.
  - reflexivity.
  - vm_compute. discriminate.
  - vm_compute. discriminate.
  - reflexivity.
Defined.

(** ** Equality of attribute values *)

Lemma SFeqb_sym (x y : spec_float) : SFeqb x y = SFeqb y x.
Proof.
  unfold SFeqb, SFcompare.
  destruct x as [sx|sx| |sx mx ex], y as [sy|sy| |sy my ey];
    try reflexivity;
    try (destruct sx; reflexivity); try (destruct sy; reflexivity);
    try (destruct sx, sy; reflexivity).
  change (Pos.compare_cont Eq mx my) with (Pos.compare mx my).
  change (Pos.compare_cont Eq my mx) with (Pos.compare my mx).
  rewrite (Z.compare_antisym ex ey), (Pos.compare_antisym mx my).
  destruct sx, sy; try reflexivity;
    destruct (ex ?= ey); simpl; try reflexivity;
    destruct (mx ?= my)%positive; reflexivity.
Qed.

Lemma SFeqb_refl (x : spec_float) :
  SFeqb x x = match x with S754_nan => false | _ => true end.
Proof.
  unfold SFeqb, SFcompare.
  destruct x as [sx|sx| |sx mx ex]; try reflexivity.
  - destruct sx; reflexivity.
  - change (Pos.compare_cont Eq mx mx) with (Pos.compare mx mx).
    rewrite Z.compare_refl, Pos.compare_refl. destruct sx; reflexivity.
Qed.

(** X12. [operator==] on [value_t] is symmetric. *)
Theorem value_t_eqb_sym (a b : value_t) : value_t_eqb a b = value_t_eqb b a.
Proof.
  destruct a as [[x|x|x]], b as [[y|y|y]]; unfold value_t_eqb; simpl;
    try reflexivity.
  - apply Z.eqb_sym.
  - apply SFeqb_sym.
  - apply String.eqb_sym.
Qed.

(** X13. Values that compare equal hold the same alternative: an integer
    never equals a double or a text, whatever they hold. *)
Theorem value_t_eqb_same_alternative (a b : value_t) :
  value_t_eqb a b = true -> value_which a = value_which b.
Proof.
  destruct a as [[x|x|x]], b as [[y|y|y]]; unfold value_t_eqb, value_which; simpl;
    intros H; try reflexivity; discriminate H.
Qed.

Lemma value_t_eqb_same_alternative_witness :
  value_which (value_t_of_int 7) = value_which (value_t_of_int (7 + 2 ^ 64)).
Proof.
  apply (value_t_eqb_same_alternative (value_t_of_int 7) (value_t_of_int (7 + 2 ^ 64))).
  reflexivity.
Defined.

(** X14. Away from doubles [operator==] is equality of the values: two
    values of which one is an integer or a text compare equal exactly when
    they are the same value. *)
Theorem value_t_eqb_eq (a b : value_t) :
  value_which a <> t_double ->
  (value_t_eqb a b = true <-> a = b).
Proof.
  intros Hnot.
  destruct a as [[x|x|[x]]], b as [[y|y|[y]]]; unfold value_t_eqb; simpl;
    try (split; intros H; [discriminate H | inversion H]).
  - rewrite Z.eqb_eq. split; [now intros ->|]. intros H. now inversion H.
  - now destruct Hnot.
  - rewrite String.eqb_eq. split; [now intros ->|]. intros H. now inversion H.
Qed.

Lemma value_t_eqb_eq_witness :
  value_t_eqb (value_t_of_string_view (make_string_view "a"))
              (value_t_of_string_view (make_string_view "a")) = true
  <-> value_t_of_string_view (make_string_view "a")
      = value_t_of_string_view (make_string_view "a").
Proof.
  apply (value_t_eqb_eq (value_t_of_string_view (make_string_view "a"))
                        (value_t_of_string_view (make_string_view "a"))).
  discriminate.
Defined.

(** X15. A value equals itself unless it is a double holding a NaN, which
    equals nothing, itself included. *)
Theorem value_t_eqb_refl (v : value_t) :
  value_t_eqb v v = negb (value_is_nan v).
Proof.
  destruct v as [[x|x|x]]; unfold value_t_eqb, value_is_nan; simpl.
  - apply Z.eqb_refl.
  - rewrite SFeqb_refl. now destruct x.
  - apply String.eqb_refl.
Qed.

(** X16. On 32-bit integers the constructor from [int] keeps the number:
    values made from two [int]s compare equal exactly when the [int]s are
    equal, and the value made holds the number it was made from. *)
Theorem value_t_of_int_eqb (a b : Z) :
  - 2 ^ 31 <= a < 2 ^ 31 ->
  - 2 ^ 31 <= b < 2 ^ 31 ->
  value_t_eqb (value_t_of_int a) (value_t_of_int b) = Z.eqb a b
  /\ value_inner (value_t_of_int a) = value_int64 a.
Proof.
  intros Ha Hb. unfold value_t_eqb, value_t_of_int. simpl.
  now rewrite !static_cast_int64_int.
Qed.

Lemma value_t_of_int_eqb_witness :
  value_t_eqb (value_t_of_int (-5)) (value_t_of_int 5) = Z.eqb (-5) 5
  /\ value_inner (value_t_of_int (-5)) = value_int64 (-5).
Proof.
  apply (value_t_of_int_eqb (-5) 5); lia.
Defined.
